(** * notion-cli: the block flattener and the client facade

    A shallow embedding of [modules/notionUtils.js] (the plain-text
    projection and the recursive flattener) and of the [NotionWrapper]
    class (the client facade), followed by the properties stated about
    them.

    Remote calls are asynchronous in the source; every one of them is
    awaited before the next statement runs, so a call is modelled as a
    state transformer on the program state: it records the request, lets
    the remote service answer and either returns the answer or throws.

    The code spreads arrays into [push] calls; a JavaScript engine
    refuses a call with more arguments than it can take, so the engine's
    limit is a parameter of the model. *)

From Stdlib Require Import String List Bool Arith Lia DecimalString.
From ExtLib Require Import Structures.Monad Structures.MonadExc.
Import ListNotations.
Import MonadNotation.
Local Open Scope string_scope.
Local Open Scope list_scope.
Local Open Scope monad_scope.

Set Implicit Arguments.
Set Warnings "-register-all".

(* ===================================================================== *)
(** ** Data model *)
(* ===================================================================== *)

(** A rich text item of the Notion API.  Only [plain_text] is read by the
    code; the field may be missing, which [t.plain_text || ""] guards. *)
Record RichTextItem := { plain_text : option string }.

(** The type-specific payload [block[block.type]].  [rich_text] is [None]
    when the payload has no such key (an image, a divider, ...) and an
    array of items otherwise; an array, even an empty one, is truthy. *)
Record Payload := { rich_text : option (list RichTextItem) }.

(** A block object as the service returns it.  [props] holds the keys of the
    object other than [id], [type] and [has_children]; the type-specific
    payload is the one stored under the key named by [type]. *)
Record Block := {
  id : string;
  type : string;
  has_children : bool;
  props : list (string * Payload)
}.

(** [SimpleBlockType] of [types.ts]; [parentBlockId] is [None] for the
    JavaScript [null] the flattener stores at top level. *)
Record SimpleBlockType := {
  blockId : string;
  text : string;
  blockType : string;
  parentBlockId : option string
}.

(** [NotionConfig] of [types.ts]. *)
Record NotionConfig := { token : string; cfg_pageId : string }.

(** Property lookup [obj[key]] on the payload part of an object. *)
Fixpoint get_prop (key : string) (obj : list (string * Payload)) : option Payload :=
  match obj with
  | [] => None
  | (k, v) :: rest => if String.eqb k key then Some v else get_prop key rest
  end.

(** [a || b] on an optional string: the empty string and a missing value
    are falsy. *)
Definition js_or (a : option string) (b : string) : string :=
  match a with
  | Some s => if String.eqb s "" then b else s
  | None => b
  end.

(* ===================================================================== *)
(** ** notionUtils.js: the plain-text projection *)
(* ===================================================================== *)

(** [getPlainTextFromRichText]: a falsy argument gives the empty string;
    [Array.isArray] holds of every value of the argument's type here. *)
Definition getPlainTextFromRichText (richText : option (list RichTextItem)) : string :=
  match richText with
  | None => ""
  | Some items => String.concat "" (map (fun t => js_or (plain_text t) "") items)
  end.

(** [extractTextContent]: [block[block.type] && block[block.type].rich_text]
    selects the rich text, otherwise the type tag is put in brackets. *)
Definition extractTextContent (block : Block) : string :=
  match get_prop (type block) (props block) with
  | Some payload =>
      match rich_text payload with
      | Some items => getPlainTextFromRichText (Some items)
      | None => "[" ++ type block ++ "]"
      end
  | None => "[" ++ type block ++ "]"
  end.

(** The record pushed first by [processBlockWithChildren]. *)
Definition simple_block (block : Block) (parentId : option string) : SimpleBlockType :=
  {| blockId := id block;
     text := extractTextContent block;
     blockType := type block;
     parentBlockId := parentId |}.

(* ===================================================================== *)
(** ** The remote service and the program state *)
(* ===================================================================== *)

(** What a rejected promise carries; the code only logs and rethrows it. *)
Definition Error := string.

(** The request bodies the facade builds. *)
Record TextContent := { content : string }.
Record RichTextRequest := { rt_type : string; rt_text : TextContent }.
Record ParagraphRequest := { rt_items : list RichTextRequest }.
Record BlockRequest := {
  br_object : string;
  br_type : string;
  br_paragraph : ParagraphRequest
}.

(** The six endpoints of the Notion client that the code calls. *)
Inductive Request :=
| PagesRetrieve (page_id : string)
| BlocksChildrenAppend (block_id : string) (children : list BlockRequest)
| BlocksDelete (block_id : string)
| BlocksRetrieve (block_id : string)
| BlocksUpdate (block_id : string) (paragraph : ParagraphRequest)
| BlocksChildrenList (block_id : string).

(** A page object; the facade hands it back untouched. *)
Record Page := { page_object_id : string; page_archived : bool }.

(** The answer of the two list-shaped endpoints, [{ results: [...] }]. *)
Record ListResponse := { results : list Block }.

Definition Response (r : Request) : Type :=
  match r with
  | PagesRetrieve _ => Page
  | BlocksChildrenAppend _ _ => ListResponse
  | BlocksDelete _ => Block
  | BlocksRetrieve _ => Block
  | BlocksUpdate _ _ => Block
  | BlocksChildrenList _ => ListResponse
  end.

(** How an awaited promise settles. *)
Inductive Settled (A : Type) :=
| Fulfilled (a : A)
| Rejected (e : Error).
Arguments Fulfilled {A} a.
Arguments Rejected {A} e.

(** The remote document service: it owns a state of its own and answers
    one request at a time.  Nothing is assumed about it. *)
Class NotionService (Remote : Type) := {
  serve : forall r : Request, Remote -> Settled (Response r) * Remote
}.

Inductive ConsoleLine :=
| ConsoleError (message : string) (error : Error)
| ConsoleWarn (message : string).

(** The program state: the facade's [pageId] field, the remote service,
    the requests sent so far and the console output so far. *)
Record State (Remote : Type) := {
  pageId : string;
  remote : Remote;
  requests : list Request;
  console : list ConsoleLine
}.
Arguments Build_State {Remote} _ _ _ _.

(** The state once request [r] has been sent and the service has moved
    to [remote']. *)
Definition sent {Remote : Type} (r : Request) (remote' : Remote) (s : State Remote)
    : State Remote :=
  {| pageId := pageId s;
     remote := remote';
     requests := requests s ++ [r];
     console := console s |}.

(** The state once a line has been written to the console. *)
Definition logged {Remote : Type} (line : ConsoleLine) (s : State Remote) : State Remote :=
  {| pageId := pageId s;
     remote := remote s;
     requests := requests s;
     console := console s ++ [line] |}.

(** How a computation ends: with a value, with a thrown error, or not
    within the recursion budget given to the flattener. *)
Inductive Outcome (A : Type) :=
| Ret (a : A)
| Throw (e : Error)
| OutOfFuel.
Arguments Ret {A} a.
Arguments Throw {A} e.
Arguments OutOfFuel {A}.

Definition M (Remote A : Type) : Type := State Remote -> Outcome A * State Remote.

(** The JavaScript engine the program runs on: a call that spreads an
    array of more than [spread_limit] elements into its arguments throws
    [spread_error] (a [RangeError]) instead of being made. *)
Class JsEngine := {
  spread_limit : nat;
  spread_error : Error
}.

Section Effects.
Context {engine : JsEngine} {Remote : Type} {service : NotionService Remote}.

Definition m_ret {A} (a : A) : M Remote A := fun s => (Ret a, s).

Definition m_bind {A B} (c : M Remote A) (k : A -> M Remote B) : M Remote B :=
  fun s =>
    match c s with
    | (Ret a, s') => k a s'
    | (Throw e, s') => (Throw e, s')
    | (OutOfFuel, s') => (OutOfFuel, s')
    end.

Definition m_throw {A} (e : Error) : M Remote A := fun s => (Throw e, s).

(** [try { c } catch (error) { handler error }] *)
Definition m_catch {A} (c : M Remote A) (handler : Error -> M Remote A) : M Remote A :=
  fun s =>
    match c s with
    | (Throw e, s') => handler e s'
    | other => other
    end.

#[export] Instance Monad_M : Monad (M Remote) :=
  {| ret := @m_ret; bind := @m_bind |}.

#[export] Instance MonadExc_M : MonadExc Error (M Remote) :=
  {| raise := @m_throw; catch := @m_catch |}.

(** [await client.<endpoint>(...)]: the request is recorded, the service
    answers, a rejection is thrown. *)
Definition call (r : Request) : M Remote (Response r) :=
  fun s =>
    let (answer, remote') := serve r (remote s) in
    match answer with
    | Fulfilled a => (Ret a, sent r remote' s)
    | Rejected e => (Throw e, sent r remote' s)
    end.

Definition log (line : ConsoleLine) : M Remote unit :=
  fun s => (Ret tt, logged line s).

Definition console_error (message : string) (error : Error) : M Remote unit :=
  log (ConsoleError message error).

Definition console_warn (message : string) : M Remote unit :=
  log (ConsoleWarn message).

Definition this_pageId : M Remote string := fun s => (Ret (pageId s), s).

(** [for (const x of xs) { acc = body x acc }] over an accumulator that
    is declared outside the loop: when the body throws, what was
    accumulated up to there is still in the variable. *)
Fixpoint for_of {X Acc} (xs : list X) (body : X -> Acc -> M Remote Acc) (acc : Acc)
    (s : State Remote) : Acc * (Outcome unit * State Remote) :=
  match xs with
  | [] => (acc, (Ret tt, s))
  | x :: rest =>
      match body x acc s with
      | (Ret acc', s') => for_of rest body acc' s'
      | (Throw e, s') => (acc, (Throw e, s'))
      | (OutOfFuel, s') => (acc, (OutOfFuel, s'))
      end
  end.

(** [out.push(...items)]: the elements of [items] become the arguments
    of one call, which the engine refuses above its limit. *)
Definition push_spread {A} (out items : list A) : M Remote (list A) :=
  if Nat.leb (length items) spread_limit
  then ret (out ++ items)
  else raise spread_error.

(* =================================================================== *)
(** ** notionUtils.js: the flattener *)
(* =================================================================== *)

Definition children_error_message (block : Block) : string :=
  "Error fetching children for block " ++ id block ++ ":".

(** [processBlockWithChildren].  The recursion follows what the service
    returns, so it is bounded by [fuel].  [out] is the array [results]
    declared before the [try]; the [catch] branch leaves it as it is,
    whether the listing was rejected or a [push] in the loop threw. *)
Fixpoint processBlockWithChildren (fuel : nat) (block : Block) (parentId : option string)
    : M Remote (list SimpleBlockType) :=
  match fuel with
  | O => fun s => (OutOfFuel, s)
  | S fuel' =>
      let out := [simple_block block parentId] in
      if has_children block then
        fun s =>
          match call (BlocksChildrenList (id block)) s with
          | (Ret childrenResponse, s1) =>
              match for_of (results childrenResponse)
                      (fun childBlock out =>
                         childResults <-
                           processBlockWithChildren fuel' childBlock (Some (id block)) ;;
                         push_spread out childResults)
                      out s1 with
              | (out', (Ret _, s2)) => (Ret out', s2)
              | (out', (Throw error, s2)) =>
                  (console_error (children_error_message block) error ;; ret out') s2
              | (_, (OutOfFuel, s2)) => (OutOfFuel, s2)
              end
          | (Throw error, s1) =>
              (console_error (children_error_message block) error ;; ret out) s1
          | (OutOfFuel, s1) => (OutOfFuel, s1)
          end
      else ret out
  end.

(** [getTextFromBlock]: the exported entry point, [parentId] defaults to
    [null]. *)
Definition getTextFromBlock (fuel : nat) (block : Block) : M Remote (list SimpleBlockType) :=
  processBlockWithChildren fuel block None.

End Effects.

(* ===================================================================== *)
(** ** The client facade: class [NotionWrapper] *)
(* ===================================================================== *)

(** The block [addText] sends and the payload [updateBlock] sends. *)
Definition text_item (text : string) : RichTextRequest :=
  {| rt_type := "text"; rt_text := {| content := text |} |}.

Definition paragraph_of (text : string) : ParagraphRequest :=
  {| rt_items := [text_item text] |}.

Definition paragraph_block (text : string) : BlockRequest :=
  {| br_object := "block"; br_type := "paragraph"; br_paragraph := paragraph_of text |}.

Definition unsupported_type_message (blockInfo : Block) : string :=
  "Block type " ++ type blockInfo
    ++ " is not supported for text updates. Only paragraph blocks can be updated.".

Section Facade.
Context {engine : JsEngine} {Remote : Type} {service : NotionService Remote}.

(** [constructor(config)]: the client is built from [config.token]; the
    service it talks to is in state [r]. *)
Definition NotionWrapper_new (config : NotionConfig) (r : Remote) : State Remote :=
  {| pageId := cfg_pageId config; remote := r; requests := []; console := [] |}.

Definition setPageId (newPageId : string) : M Remote unit :=
  fun s =>
    (Ret tt, {| pageId := newPageId;
                remote := remote s;
                requests := requests s;
                console := console s |}).

Definition getPageId : M Remote string := this_pageId.

(** [catch (error) { console.error(message, error); throw error; }] *)
Definition log_and_rethrow {A} (message : string) (error : Error) : M Remote A :=
  console_error message error ;; raise error.

Definition getPage : M Remote Page :=
  catch
    (page_id <- this_pageId ;;
     response <- call (PagesRetrieve page_id) ;;
     ret response)
    (log_and_rethrow "Error retrieving Notion page:").

Definition addText (text : string) (parentBlock : option string) : M Remote ListResponse :=
  catch
    (this_page <- this_pageId ;;
     let blockId := js_or parentBlock this_page in
     response <- call (BlocksChildrenAppend blockId [paragraph_block text]) ;;
     ret response)
    (log_and_rethrow "Error adding text to Notion:").

Definition deleteBlock (blockId : string) : M Remote Block :=
  catch
    (response <- call (BlocksDelete blockId) ;;
     ret response)
    (log_and_rethrow "Error deleting block from Notion:").

Definition updateBlock (blockId : string) (text : string) : M Remote Block :=
  catch
    (blockInfo <- call (BlocksRetrieve blockId) ;;
     (if negb (String.eqb (type blockInfo) "paragraph")
      then console_warn (unsupported_type_message blockInfo)
      else ret tt) ;;
     response <- call (BlocksUpdate blockId (paragraph_of text)) ;;
     ret response)
    (log_and_rethrow "Error updating block in Notion:").

(** The loop of [getPageBlocks]: [blocks] is local to the [try], so a
    throw inside the loop leaves nothing of it behind. *)
Definition push_each (fuel : nat) (top : list Block) : M Remote (list SimpleBlockType) :=
  fun s =>
    match for_of top
            (fun block blocks =>
               processedBlocks <- getTextFromBlock fuel block ;;
               push_spread blocks processedBlocks)
            [] s with
    | (blocks, (Ret _, s')) => (Ret blocks, s')
    | (_, (Throw error, s')) => (Throw error, s')
    | (_, (OutOfFuel, s')) => (OutOfFuel, s')
    end.

Definition getPageBlocks (fuel : nat) : M Remote (list SimpleBlockType) :=
  catch
    (page_id <- this_pageId ;;
     response <- call (BlocksChildrenList page_id) ;;
     push_each fuel (results response))
    (log_and_rethrow "Error retrieving page blocks from Notion:").

End Facade.

(* ===================================================================== *)
(** ** Reference model of the traversal *)
(* ===================================================================== *)

(** What a traversal sees of the document below one block: a block that
    declares no children; a block whose children could not be listed; a
    block with the trees of its children in the order they were
    returned; or a block whose loop over the children was cut short,
    because the sequence of one child ([dropped]) was more than one
    [push] can take: the children before it are in, that child and the
    ones after it are not. *)
Inductive Tree :=
| Leaf (b : Block)
| Failed (b : Block) (e : Error)
| Node (b : Block) (children : list Tree)
| Cut (b : Block) (children : list Tree) (dropped : Tree).

(** Depth-first pre-order: the block's own record, then each child's
    whole sequence in turn, each child carrying the block's id as its
    parent. *)
Fixpoint preorder (parentId : option string) (t : Tree) : list SimpleBlockType :=
  match t with
  | Leaf b => [simple_block b parentId]
  | Failed b _ => [simple_block b parentId]
  | Node b children =>
      simple_block b parentId :: flat_map (preorder (Some (id b))) children
  | Cut b children _ =>
      simple_block b parentId :: flat_map (preorder (Some (id b))) children
  end.

Fixpoint depth (t : Tree) : nat :=
  match t with
  | Leaf _ => 1
  | Failed _ _ => 1
  | Node _ children => S (list_max (map depth children))
  | Cut _ children dropped => S (Nat.max (list_max (map depth children)) (depth dropped))
  end.

(** The number of records a tree flattens to. *)
Definition records (t : Tree) : nat := length (preorder None t).

Section Traversal.
Context {engine : JsEngine} {Remote : Type} {service : NotionService Remote}.

(** [explores b s t s']: starting in state [s], the service shows the
    document below [b] to be [t], one listing call per block that
    declares children, children visited in order, one after the other.
    A rejected listing is logged; so is the [push] of a child's sequence
    that the engine refuses, which ends the visit of that block.  [s'] is
    the state afterwards.  [explores_all] visits a list of blocks whose
    sequences the engine all accepts. *)
Inductive explores : Block -> State Remote -> Tree -> State Remote -> Prop :=
| explores_leaf b s :
    has_children b = false ->
    explores b s (Leaf b) s
| explores_failed b s e s1 :
    has_children b = true ->
    call (BlocksChildrenList (id b)) s = (Throw e, s1) ->
    explores b s (Failed b e) (logged (ConsoleError (children_error_message b) e) s1)
| explores_node b s response s1 ts s2 :
    has_children b = true ->
    call (BlocksChildrenList (id b)) s = (Ret response, s1) ->
    explores_all (results response) s1 ts s2 ->
    explores b s (Node b ts) s2
| explores_cut b s response s1 before child after ts s2 t s3 :
    has_children b = true ->
    call (BlocksChildrenList (id b)) s = (Ret response, s1) ->
    results response = before ++ child :: after ->
    explores_all before s1 ts s2 ->
    explores child s2 t s3 ->
    spread_limit < records t ->
    explores b s (Cut b ts t)
      (logged (ConsoleError (children_error_message b) spread_error) s3)
with explores_all : list Block -> State Remote -> list Tree -> State Remote -> Prop :=
| explores_nil s :
    explores_all [] s [] s
| explores_cons b bs s t s1 ts s2 :
    explores b s t s1 ->
    records t <= spread_limit ->
    explores_all bs s1 ts s2 ->
    explores_all (b :: bs) s (t :: ts) s2.

End Traversal.

Scheme explores_min := Minimality for explores Sort Prop
  with explores_all_min := Minimality for explores_all Sort Prop.
Combined Scheme explores_mutind from explores_min, explores_all_min.

(** The invariant of the output: every parent identifier names a record
    that came earlier.  [seen] holds the identifiers met so far. *)
Fixpoint linked (seen : list string) (rs : list SimpleBlockType) : bool :=
  match rs with
  | [] => true
  | r :: rest =>
      match parentBlockId r with
      | Some p => existsb (String.eqb p) seen
      | None => true
      end && linked (blockId r :: seen) rest
  end.

(** The records that carry no parent identifier, in order. *)
Definition parentless (rs : list SimpleBlockType) : list SimpleBlockType :=
  filter (fun r => match parentBlockId r with None => true | Some _ => false end) rs.

Definition root (t : Tree) : Block :=
  match t with
  | Leaf b => b
  | Failed b _ => b
  | Node b _ => b
  | Cut b _ _ => b
  end.

(** [known parentId seen]: a defined parent identifier is among [seen]. *)
Definition known (parentId : option string) (seen : list string) : Prop :=
  match parentId with
  | Some p => existsb (String.eqb p) seen = true
  | None => True
  end.

(** Every record with a defined [parentBlockId] has a record with that
    [blockId] at a smaller index. *)
Definition parent_before (rs : list SimpleBlockType) : Prop :=
  forall i r p,
    nth_error rs i = Some r ->
    parentBlockId r = Some p ->
    exists j r', j < i /\ nth_error rs j = Some r' /\ blockId r' = p.

Section Runs.
Context {engine : JsEngine} {Remote : Type} {service : NotionService Remote}.

(** [flattens_each fuel parent bs s rss s']: flattening the blocks [bs]
    one after the other with parent [parent], starting in state [s],
    returns the sequences [rss], one per block, each of them short
    enough for one [push], and ends in [s']. *)
Inductive flattens_each (fuel : nat) (parent : option string)
  : list Block -> State Remote -> list (list SimpleBlockType) -> State Remote -> Prop :=
| flattens_nil s :
    flattens_each fuel parent [] s [] s
| flattens_cons b bs s rs s1 rss s2 :
    processBlockWithChildren fuel b parent s = (Ret rs, s1) ->
    length rs <= spread_limit ->
    flattens_each fuel parent bs s1 rss s2 ->
    flattens_each fuel parent (b :: bs) s (rs :: rss) s2.

(** A computation that leaves the facade's [pageId] field as it is,
    however it ends. *)
Definition keeps_page {A} (c : M Remote A) : Prop :=
  forall s, pageId (snd (c s)) = pageId s.

(** The operations of the facade, as a caller invokes them one after the
    other on the same instance. *)
Inductive FacadeOp :=
| OpSetPageId (newPageId : string)
| OpGetPageId
| OpGetPage
| OpAddText (text : string) (parentBlock : option string)
| OpDeleteBlock (blockId : string)
| OpUpdateBlock (blockId text : string)
| OpGetPageBlocks (fuel : nat).

(** The state an operation leaves behind, whether it returned or threw. *)
Definition after_op (op : FacadeOp) (s : State Remote) : State Remote :=
  match op with
  | OpSetPageId newPageId => snd (setPageId newPageId s)
  | OpGetPageId => snd (getPageId s)
  | OpGetPage => snd (getPage s)
  | OpAddText text parentBlock => snd (addText text parentBlock s)
  | OpDeleteBlock blockId => snd (deleteBlock blockId s)
  | OpUpdateBlock blockId text => snd (updateBlock blockId text s)
  | OpGetPageBlocks fuel => snd (getPageBlocks fuel s)
  end.

Definition after_ops (ops : list FacadeOp) (s : State Remote) : State Remote :=
  fold_left (fun s op => after_op op s) ops s.

End Runs.

(** The identifier most recently set: the argument of the last
    [setPageId] among [ops], or [current] when there is none. *)
Fixpoint last_set (ops : list FacadeOp) (current : string) : string :=
  match ops with
  | [] => current
  | OpSetPageId newPageId :: rest => last_set rest newPageId
  | _ :: rest => last_set rest current
  end.

(** The plain-text value of a rich text item. *)
Definition plain_of (t : RichTextItem) : string :=
  match plain_text t with
  | Some s => s
  | None => ""
  end.


(** The blocks whose children a traversal asked for, in the order it
    asked. *)
Fixpoint listed (t : Tree) : list string :=
  match t with
  | Leaf _ => []
  | Failed b _ => [id b]
  | Node b children => id b :: flat_map listed children
  | Cut b children dropped => id b :: flat_map listed children ++ listed dropped
  end.

(** What a traversal wrote to the console: one line per listing that
    was rejected and one per loop that was cut short, each when it
    happened. *)
Fixpoint failures {engine : JsEngine} (t : Tree) : list ConsoleLine :=
  match t with
  | Leaf _ => []
  | Failed b e => [ConsoleError (children_error_message b) e]
  | Node _ children => flat_map failures children
  | Cut b children dropped =>
      flat_map failures children
      ++ failures dropped
      ++ [ConsoleError (children_error_message b) spread_error]
  end.

(** No loop of the traversal was cut short. *)
Fixpoint intact (t : Tree) : bool :=
  match t with
  | Leaf _ | Failed _ _ => true
  | Node _ children => forallb intact children
  | Cut _ _ _ => false
  end.

(** [a] is truthy: present and not the empty string. *)
Definition truthy (a : option string) : bool :=
  match a with
  | Some s => negb (String.eqb s "")
  | None => false
  end.

Section FailureReports.
Context {engine : JsEngine} {Remote : Type} {service : NotionService Remote}.

(** The state of the service once it has answered [sent_requests] in
    turn. *)
Definition replay (sent_requests : list Request) (r : Remote) : Remote :=
  fold_left (fun r request => snd (serve request r)) sent_requests r.

(** [fails_cleanly c message]: whenever [c] throws, the error is the one
    the service rejected the last request of [c] with, and the last
    thing done was to write it to the console under [message]. *)
Definition fails_cleanly {A} (c : M Remote A) (message : string) : Prop :=
  forall s e s',
    c s = (Throw e, s') ->
    exists s1 earlier last,
      s' = logged (ConsoleError message e) s1
      /\ requests s1 = requests s ++ earlier ++ [last]
      /\ serve last (replay earlier (remote s)) = (Rejected e, remote s1).

End FailureReports.

(* ===================================================================== *)
(** ** The command surface: index.ts *)
(* ===================================================================== *)

(** What a command writes with [console.log]: a line of text, or the
    [JSON.stringify(value, null, 2)] of a response. *)
Inductive Printed :=
| Line (text : string)
| JsonPage (page : Page)
| JsonList (response : ListResponse)
| JsonBlock (block : Block).

(** A command with the arguments and options the parser hands to its
    action; an option that was not given is [None]. *)
Inductive Command :=
| GetPage (options_id : option string)
| AddText (text : string) (options_id options_block : option string)
| DeleteBlock (blockId : string)
| ListBlocks (options_id : option string)
| UpdateBlock (blockId text : string).

(** What one run of the program leaves behind: the service, the requests
    sent, the lines on standard error and on standard output, and whether
    the run came to its end within the recursion budget. *)
Record Run (Remote : Type) := {
  run_remote : Remote;
  run_requests : list Request;
  run_stderr : list ConsoleLine;
  run_stdout : list Printed;
  run_finished : bool
}.
Arguments Build_Run {Remote} _ _ _ _ _.

Definition missing_token_error : Error :=
  "Missing required environment variable: NOTION_TOKEN must be set".

(** The [forEach] body of the list-blocks action. *)
Definition print_block (block : SimpleBlockType) : list Printed :=
  [Line ("- Block ID: " ++ blockId block);
   Line ("  Type: " ++ blockType block);
   Line ("  Text: " ++ text block)]
  ++ match parentBlockId block with
     | Some parent =>
         if String.eqb parent "" then [] else [Line ("  Parent: " ++ parent)]
     | None => []
     end
  ++ [Line ""].

(** The message each action passes to [console.error] in its [catch]. *)
Definition command_error_message (cmd : Command) : string :=
  match cmd with
  | GetPage _ => "Error retrieving page:"
  | AddText _ _ _ => "Error adding text:"
  | DeleteBlock _ => "Error deleting block:"
  | ListBlocks _ => "Error listing blocks:"
  | UpdateBlock _ _ => "Error updating block:"
  end.

(** The message the facade operation behind each command passes to
    [console.error] before it rethrows. *)
Definition facade_error_message (cmd : Command) : string :=
  match cmd with
  | GetPage _ => "Error retrieving Notion page:"
  | AddText _ _ _ => "Error adding text to Notion:"
  | DeleteBlock _ => "Error deleting block from Notion:"
  | ListBlocks _ => "Error retrieving page blocks from Notion:"
  | UpdateBlock _ _ => "Error updating block in Notion:"
  end.

Section CommandSurface.
Context {engine : JsEngine} {Remote : Type} {service : NotionService Remote}.

(** The constant of [modules/constants] that names the default page. *)
Variable NOTION_PAGE_ID : string.

(** [createNotionClient]: [NOTION_TOKEN] is [process.env.NOTION_TOKEN];
    a missing or empty token throws before any wrapper exists. *)
Definition createNotionClient (NOTION_TOKEN : option string) (r : Remote)
    : Error + State Remote :=
  match NOTION_TOKEN with
  | Some tok =>
      if String.eqb tok ""
      then inl missing_token_error
      else inr (NotionWrapper_new {| token := tok; cfg_pageId := NOTION_PAGE_ID |} r)
  | None => inl missing_token_error
  end.

(** [if (options.id) { notion.setPageId(options.id); }] *)
Definition use_page (options_id : option string) : M Remote unit :=
  match options_id with
  | Some page =>
      if String.eqb page "" then ret tt else setPageId page
  | None => ret tt
  end.

(** The statements of each action's [try] block after the client has
    been created; the value is what they print. *)
Definition command_body (fuel : nat) (cmd : Command) : M Remote (list Printed) :=
  match cmd with
  | GetPage options_id =>
      use_page options_id ;;
      page <- getPage ;;
      ret [JsonPage page]
  | AddText text options_id options_block =>
      use_page options_id ;;
      response <- addText text options_block ;;
      ret [Line "Text added successfully!"; JsonList response]
  | DeleteBlock blockId =>
      response <- deleteBlock blockId ;;
      ret [Line "Block deleted successfully!"; JsonBlock response]
  | ListBlocks options_id =>
      use_page options_id ;;
      blocks <- getPageBlocks fuel ;;
      ret (Line "Page blocks:" :: flat_map print_block blocks)
  | UpdateBlock blockId text =>
      response <- updateBlock blockId text ;;
      ret [Line "Block updated successfully!"; JsonBlock response]
  end.

(** One action, from [try] to the end of its [catch]: whatever is thrown
    is written to standard error under the action's message. *)
Definition run_command (fuel : nat) (NOTION_TOKEN : option string) (cmd : Command)
    (r : Remote) : Run Remote :=
  match createNotionClient NOTION_TOKEN r with
  | inl error =>
      {| run_remote := r;
         run_requests := [];
         run_stderr := [ConsoleError (command_error_message cmd) error];
         run_stdout := [];
         run_finished := true |}
  | inr notion =>
      match command_body fuel cmd notion with
      | (Ret printed, s) =>
          {| run_remote := remote s;
             run_requests := requests s;
             run_stderr := console s;
             run_stdout := printed;
             run_finished := true |}
      | (Throw error, s) =>
          {| run_remote := remote s;
             run_requests := requests s;
             run_stderr := console s ++ [ConsoleError (command_error_message cmd) error];
             run_stdout := [];
             run_finished := true |}
      | (OutOfFuel, s) =>
          {| run_remote := remote s;
             run_requests := requests s;
             run_stderr := console s;
             run_stdout := [];
             run_finished := false |}
      end
  end.

End CommandSurface.

(* ===================================================================== *)
(** ** An in-memory document service, for concrete runs *)
(* ===================================================================== *)

Module Memory.

(** The children of each container (page or block) that can be listed,
    and the blocks that can be retrieved.  Listing an unknown container
    is rejected, as is retrieving an unknown block. *)
Record Store := {
  listing : list (string * list Block);
  blocks : list Block
}.

Fixpoint children_of (key : string) (l : list (string * list Block)) : option (list Block) :=
  match l with
  | [] => None
  | (k, v) :: rest => if String.eqb k key then Some v else children_of key rest
  end.

Fixpoint find_block (key : string) (l : list Block) : option Block :=
  match l with
  | [] => None
  | b :: rest => if String.eqb (id b) key then Some b else find_block key rest
  end.

Definition not_found : Error := "object_not_found".
Definition validation_error : Error := "validation_error".

Definition stored_paragraph (p : ParagraphRequest) : Payload :=
  {| rich_text :=
       Some (map (fun t => {| plain_text := Some (content (rt_text t)) |}) (rt_items p)) |}.

Definition created (n : nat) (c : BlockRequest) : Block :=
  {| id := String.concat "" ("block" :: repeat "'" n);
     type := br_type c;
     has_children := false;
     props := [(br_type c, stored_paragraph (br_paragraph c))] |}.

Definition answer (r : Request) (st : Store) : Settled (Response r) * Store :=
  match r return Settled (Response r) * Store with
  | PagesRetrieve page_id =>
      (Fulfilled {| page_object_id := page_id; page_archived := false |}, st)
  | BlocksChildrenAppend block_id children =>
      let fresh := map (created (length (blocks st))) children in
      (Fulfilled {| results := fresh |},
       {| listing := (block_id, fresh) :: listing st; blocks := fresh ++ blocks st |})
  | BlocksDelete block_id =>
      match find_block block_id (blocks st) with
      | Some b => (Fulfilled b, st)
      | None => (Rejected not_found, st)
      end
  | BlocksRetrieve block_id =>
      match find_block block_id (blocks st) with
      | Some b => (Fulfilled b, st)
      | None => (Rejected not_found, st)
      end
  | BlocksUpdate block_id paragraph =>
      match find_block block_id (blocks st) with
      | Some b =>
          if String.eqb (type b) "paragraph"
          then (Fulfilled {| id := id b; type := type b; has_children := has_children b;
                             props := [("paragraph", stored_paragraph paragraph)] |}, st)
          else (Rejected validation_error, st)
      | None => (Rejected not_found, st)
      end
  | BlocksChildrenList block_id =>
      match children_of block_id (listing st) with
      | Some bs => (Fulfilled {| results := bs |}, st)
      | None => (Rejected not_found, st)
      end
  end.

#[global] Instance service : NotionService Store := {| serve := answer |}.

Definition range_error : Error := "RangeError: Maximum call stack size exceeded".

(** An engine that takes up to a thousand spread arguments, and one that
    takes a single one. *)
#[global] Instance engine : JsEngine :=
  {| spread_limit := 1000; spread_error := range_error |}.

Definition narrow : JsEngine :=
  {| spread_limit := 1; spread_error := range_error |}.

Definition paragraph (block_id txt : string) (children : bool) : Block :=
  {| id := block_id; type := "paragraph"; has_children := children;
     props := [("paragraph", {| rich_text := Some [ {| plain_text := Some txt |} ] |})] |}.

Definition image (block_id : string) : Block :=
  {| id := block_id; type := "image"; has_children := false;
     props := [("image", {| rich_text := None |})] |}.

(** The page of the end-to-end scenario: P holds A ("Intro") and
    B ("Details"); B holds C ("Sub"). *)
Definition A := paragraph "A" "Intro" false.
Definition B := paragraph "B" "Details" true.
Definition C := paragraph "C" "Sub" false.

Definition scenario : Store :=
  {| listing := [("P", [A; B]); ("B", [C])]; blocks := [A; B; C] |}.

(** The same page when the children of B cannot be listed, followed by
    a further top-level block D that has a child E.  The block H holds
    the same three blocks as the page does. *)
Definition D := paragraph "D" "More" true.
Definition E := image "E".
Definition H := paragraph "H" "Holder" true.

Definition broken : Store :=
  {| listing := [("P", [A; B; D]); ("D", [E]); ("H", [A; B; D])];
     blocks := [A; B; D; E; H] |}.

(** A long document in which no container holds more than a hundred
    blocks: the page P and the block W each hold the block L alone,
    L holds eleven groups and each group a hundred one-line items, so
    a group flattens to 101 records and L to 1112. *)
Definition number (n : nat) : string := NilEmpty.string_of_uint (Nat.to_uint n).

Definition group_id (k : nat) : string := "group" ++ number k.

Definition item (k j : nat) : Block :=
  paragraph (group_id k ++ "-item" ++ number j) "line" false.

Definition items (k : nat) : list Block := map (item k) (seq 1 100).

Definition group (k : nat) : Block := paragraph (group_id k) "Group" true.

Definition groups : list Block := map group (seq 1 11).

Definition L := paragraph "L" "List" true.
Definition W := paragraph "W" "Wrapper" true.

Definition long : Store :=
  {| listing := [("P", [L]); ("W", [L]); ("L", groups)]
                ++ map (fun k => (group_id k, items k)) (seq 1 11);
     blocks := W :: L :: groups ++ flat_map items (seq 1 11) |}.

(** What L flattens to under [parent]. *)
Definition long_records (parent : option string) : list SimpleBlockType :=
  simple_block L parent
  :: flat_map (fun k => simple_block (group k) (Some "L")
                        :: map (fun b => simple_block b (Some (group_id k))) (items k))
       (seq 1 11).

(** A facade over a store, configured for page P. *)
Definition start (st : Store) : State Store :=
  NotionWrapper_new {| token := "secret"; cfg_pageId := "P" |} st.

End Memory.
(* ===================================================================== *)
(** ** Facts about pre-order sequences *)
(* ===================================================================== *)

Lemma Tree_ind_forall (P : Tree -> Prop) :
  (forall b, P (Leaf b)) ->
  (forall b e, P (Failed b e)) ->
  (forall b ts, Forall P ts -> P (Node b ts)) ->
  (forall b ts t, Forall P ts -> P t -> P (Cut b ts t)) ->
  forall t, P t.
Proof.
  intros HL HF HN HC. fix IH 1. intros [b|b e|b ts|b ts t].
  - apply HL.
  - apply HF.
  - apply HN. induction ts as [|t ts IHts]; constructor; [apply IH | exact IHts].
  - apply HC; [|apply IH].
    induction ts as [|t' ts IHts]; constructor; [apply IH | exact IHts].
Qed.

(** A cut-short visit flattens like the visit of the children that are
    in. *)
Lemma preorder_cut parentId b ts t :
  preorder parentId (Cut b ts t) = preorder parentId (Node b ts).
Proof. reflexivity. Qed.

Lemma linked_app seen rs1 rs2 :
  linked seen (rs1 ++ rs2)
  = linked seen rs1 && linked (rev (map blockId rs1) ++ seen) rs2.
Proof.
  revert seen. induction rs1 as [|r rs1 IH]; intros seen; simpl.
  - reflexivity.
  - rewrite IH, <- app_assoc. simpl. now rewrite andb_assoc.
Qed.

Lemma existsb_mono (p : string) (seen seen' : list string) :
  incl seen seen' ->
  existsb (String.eqb p) seen = true -> existsb (String.eqb p) seen' = true.
Proof.
  intros Hincl H. apply existsb_exists in H as (x & Hx & Hp).
  apply existsb_exists. exists x. auto.
Qed.

Lemma linked_mono rs : forall seen seen',
  incl seen seen' -> linked seen rs = true -> linked seen' rs = true.
Proof.
  induction rs as [|r rs IH]; intros seen seen' Hincl H; simpl in *; [reflexivity|].
  apply andb_true_iff in H as [H1 H2]. apply andb_true_iff. split.
  - destruct (parentBlockId r); [eapply existsb_mono; eassumption | reflexivity].
  - apply (IH (blockId r :: seen)); [|assumption].
    intros x [->|Hx]; [now left | right; auto].
Qed.

Lemma known_head (x : string) (seen : list string) : known (Some x) (x :: seen).
Proof. simpl. now rewrite String.eqb_refl. Qed.

Lemma preorder_linked t : forall parentId seen,
  known parentId seen -> linked seen (preorder parentId t) = true.
Proof.
  induction t as [b|b e|b ts IH|b ts dropped IH _] using Tree_ind_forall;
    intros parentId seen Hk; try rewrite preorder_cut.
  1, 2: simpl; destruct parentId; simpl in *; now rewrite ?Hk.
  all: cbn [preorder linked simple_block parentBlockId blockId];
    apply andb_true_iff; (split; [destruct parentId; simpl in *; auto|]);
    assert (Hhead : known (Some (id b)) (id b :: seen)) by apply known_head;
    revert Hhead; generalize (id b :: seen) as seen';
    induction IH as [|t ts Ht _ IHts]; intros seen' Hhead; [reflexivity|];
    simpl flat_map; rewrite linked_app; apply andb_true_iff; split;
    [ now apply Ht
    | apply IHts; simpl in *; (eapply existsb_mono; [|exact Hhead]);
      intros x Hx; apply in_or_app; now right ].
Qed.

Lemma flat_map_preorder_linked parentId ts : forall seen,
  known parentId seen -> linked seen (flat_map (preorder parentId) ts) = true.
Proof.
  induction ts as [|t ts IH]; intros seen Hk; [reflexivity|].
  simpl. rewrite linked_app. apply andb_true_iff. split.
  - now apply preorder_linked.
  - apply IH. destruct parentId; simpl in *; [|exact I].
    eapply existsb_mono; [|exact Hk]. intros x Hx. apply in_or_app. now right.
Qed.

(** The reading of [linked] on positions: a parent identifier is either
    among those seen before the sequence started or the [blockId] of a
    record at a smaller index. *)
Lemma linked_positions rs : forall seen,
  linked seen rs = true ->
  forall i r p,
    nth_error rs i = Some r -> parentBlockId r = Some p ->
    In p seen \/ exists j r', j < i /\ nth_error rs j = Some r' /\ blockId r' = p.
Proof.
  induction rs as [|r0 rs IH]; intros seen H i r p Hi Hp.
  - destruct i; discriminate.
  - simpl in H. apply andb_true_iff in H as [H1 H2].
    destruct i as [|i]; simpl in Hi.
    + inversion Hi; subst r0. rewrite Hp in H1.
      apply existsb_exists in H1 as (x & Hx & Heq).
      apply String.eqb_eq in Heq. subst x. now left.
    + destruct (IH _ H2 i r p Hi Hp) as [[Hin|Hin]|(j & r' & Hj & Hnth & Hid)].
      * right. exists 0, r0. split; [lia|]. split; [reflexivity|]. now symmetry.
      * now left.
      * right. exists (S j), r'. split; [lia|]. now split.
Qed.

(** After its first record, a pre-order sequence is linked whatever the
    parent of its root. *)
Lemma preorder_tail_linked t parentId i r p :
  nth_error (preorder parentId t) (S i) = Some r ->
  parentBlockId r = Some p ->
  exists j r', j < S i /\ nth_error (preorder parentId t) j = Some r' /\ blockId r' = p.
Proof.
  intros Hi Hp.
  assert (Hlater : linked [blockId (simple_block (root t) parentId)]
                     (tl (preorder parentId t)) = true).
  { destruct t as [b|b e|b ts|b ts dropped]; try reflexivity;
      cbn [preorder tl root simple_block blockId];
      apply flat_map_preorder_linked, known_head. }
  assert (Hi' : nth_error (tl (preorder parentId t)) i = Some r)
    by (destruct t; exact Hi).
  destruct (linked_positions _ _ Hlater i Hi' Hp) as [[Heq|[]]|(j & r' & Hj & Hnth & Hid)].
  - exists 0, (simple_block (root t) parentId). split; [lia|].
    split; [destruct t; reflexivity | exact Heq].
  - exists (S j), r'. split; [lia|]. split; [|exact Hid].
    destruct t; exact Hnth.
Qed.

Lemma parentless_app rs1 rs2 : parentless (rs1 ++ rs2) = parentless rs1 ++ parentless rs2.
Proof. apply filter_app. Qed.

Lemma parentless_children pid ts : parentless (flat_map (preorder (Some pid)) ts) = [].
Proof.
  induction ts as [|t ts IH]; [reflexivity|].
  simpl. rewrite parentless_app, IH, app_nil_r. clear IH.
  revert pid.
  induction t as [b|b e|b kids IHk|b kids dropped IHk _] using Tree_ind_forall;
    intros pid; try reflexivity.
  all: cbn [preorder]; unfold parentless; cbn [filter simple_block parentBlockId];
    induction IHk as [|k kids Hk _ IHkids]; [reflexivity|];
    simpl flat_map;
    fold (parentless (preorder (Some (id b)) k
                      ++ flat_map (preorder (Some (id b))) kids));
    rewrite parentless_app, Hk; exact IHkids.
Qed.

Lemma parentless_preorder_top t : parentless (preorder None t) = [simple_block (root t) None].
Proof.
  destruct t as [b|b e|b ts|b ts dropped]; try reflexivity;
    cbn [preorder root]; unfold parentless; cbn [filter simple_block parentBlockId];
    f_equal; apply parentless_children.
Qed.

Lemma parentless_tops ts :
  parentless (flat_map (preorder None) ts) = map (fun t => simple_block (root t) None) ts.
Proof.
  induction ts as [|t ts IH]; [reflexivity|].
  simpl. now rewrite parentless_app, parentless_preorder_top, IH.
Qed.


(** The number of records does not depend on the parent. *)
Lemma preorder_length parentId t : length (preorder parentId t) = records t.
Proof.
  unfold records. destruct t; reflexivity.
Qed.

(* ===================================================================== *)
(** ** The flattener against the reference model *)
(* ===================================================================== *)

Section TraversalFacts.
Context {engine : JsEngine} {Remote : Type} {service : NotionService Remote}.

(** The body of the loop in [processBlockWithChildren]. *)
Local Abbreviation push_child fuel parent :=
  (fun childBlock out =>
     childResults <- processBlockWithChildren fuel childBlock parent ;;
     push_spread out childResults).

(** One unfolding of the flattener on a block that declares children. *)
Lemma processBlockWithChildren_children fuel b parentId (s : State Remote) :
  has_children b = true ->
  processBlockWithChildren (S fuel) b parentId s
  = match call (BlocksChildrenList (id b)) s with
    | (Ret childrenResponse, s1) =>
        match for_of (results childrenResponse) (push_child fuel (Some (id b)))
                [simple_block b parentId] s1 with
        | (out', (Ret _, s2)) => (Ret out', s2)
        | (out', (Throw error, s2)) =>
            (console_error (children_error_message b) error ;; ret out') s2
        | (_, (OutOfFuel, s2)) => (OutOfFuel, s2)
        end
    | (Throw error, s1) =>
        (console_error (children_error_message b) error
         ;; ret [simple_block b parentId]) s1
    | (OutOfFuel, s1) => (OutOfFuel, s1)
    end.
Proof. intros H. simpl. rewrite H. reflexivity. Qed.

Lemma processBlockWithChildren_childless fuel b parentId (s : State Remote) :
  has_children b = false ->
  processBlockWithChildren (S fuel) b parentId s = (Ret [simple_block b parentId], s).
Proof. intros H. simpl. rewrite H. reflexivity. Qed.

Lemma for_of_cons {X Acc} (x : X) (rest : list X) (body : X -> Acc -> M Remote Acc)
    (acc : Acc) (s : State Remote) :
  for_of (x :: rest) body acc s
  = match body x acc s with
    | (Ret acc', s') => for_of rest body acc' s'
    | (Throw e, s') => (acc, (Throw e, s'))
    | (OutOfFuel, s') => (acc, (OutOfFuel, s'))
    end.
Proof. reflexivity. Qed.

(** A loop over two lists put end to end runs the second where the first
    ended, unless the first was left early. *)
Lemma for_of_app {X Acc} (xs ys : list X) (body : X -> Acc -> M Remote Acc) :
  forall (acc : Acc) (s : State Remote),
    for_of (xs ++ ys) body acc s
    = match for_of xs body acc s with
      | (acc1, (Ret _, s1)) => for_of ys body acc1 s1
      | (acc1, (Throw e, s1)) => (acc1, (Throw e, s1))
      | (acc1, (OutOfFuel, s1)) => (acc1, (OutOfFuel, s1))
      end.
Proof.
  induction xs as [|x xs IH]; intros acc s; [reflexivity|].
  rewrite <- app_comm_cons, !for_of_cons.
  destruct (body x acc s) as [[acc'|e|] s']; [apply IH | reflexivity | reflexivity].
Qed.

Lemma bind_run {A B} (c : M Remote A) (k : A -> M Remote B) (s : State Remote) :
  (x <- c ;; k x) s
  = match c s with
    | (Ret a, s') => k a s'
    | (Throw e, s') => (Throw e, s')
    | (OutOfFuel, s') => (OutOfFuel, s')
    end.
Proof. reflexivity. Qed.

Lemma ret_run {A} (a : A) (s : State Remote) :
  (ret a : M Remote A) s = (Ret a, s).
Proof. reflexivity. Qed.

Lemma push_spread_within {A} (out items : list A) (s : State Remote) :
  length items <= spread_limit ->
  push_spread out items s = (Ret (out ++ items), s).
Proof.
  intros H. unfold push_spread.
  now rewrite (proj2 (Nat.leb_le _ _) H).
Qed.

Lemma push_spread_beyond {A} (out items : list A) (s : State Remote) :
  spread_limit < length items ->
  push_spread out items s = (Throw spread_error, s).
Proof.
  intros H. unfold push_spread.
  now rewrite (proj2 (Nat.leb_gt _ _) H).
Qed.

Lemma list_max_cons_le (n : nat) (l : list nat) (fuel : nat) :
  list_max (n :: l) <= fuel -> n <= fuel /\ list_max l <= fuel.
Proof. simpl. lia. Qed.

(** A traversal the service and the engine allow is the one the
    flattener makes, as soon as the recursion budget covers the depth of
    the tree. *)
Lemma flatten_complete :
  (forall b (s : State Remote) t s',
      explores b s t s' ->
      forall fuel parentId,
        depth t <= fuel ->
        processBlockWithChildren fuel b parentId s = (Ret (preorder parentId t), s'))
  /\
  (forall bs (s : State Remote) ts s',
      explores_all bs s ts s' ->
      forall fuel parent out,
        list_max (map depth ts) <= fuel ->
        for_of bs (push_child fuel parent) out s
        = (out ++ flat_map (preorder parent) ts, (Ret tt, s'))).
Proof.
  apply explores_mutind.
  - intros b s Hleaf fuel parentId Hfuel.
    destruct fuel as [|fuel]; [simpl in Hfuel; lia|].
    now apply processBlockWithChildren_childless.
  - intros b s e s1 Hkids Hcall fuel parentId Hfuel.
    destruct fuel as [|fuel]; [simpl in Hfuel; lia|].
    rewrite processBlockWithChildren_children by assumption.
    now rewrite Hcall.
  - intros b s response s1 ts s2 Hkids Hcall _ IH fuel parentId Hfuel.
    destruct fuel as [|fuel]; [simpl in Hfuel; lia|].
    simpl in Hfuel. apply le_S_n in Hfuel.
    rewrite processBlockWithChildren_children by assumption.
    rewrite Hcall, (IH fuel (Some (id b)) [simple_block b parentId] Hfuel).
    reflexivity.
  - intros b s response s1 before child after ts s2 t s3 Hkids Hcall Hres _ IHbefore
      _ IHchild Hover fuel parentId Hfuel.
    destruct fuel as [|fuel]; [simpl in Hfuel; lia|].
    simpl in Hfuel. apply le_S_n in Hfuel.
    rewrite processBlockWithChildren_children by assumption.
    rewrite Hcall, Hres, for_of_app.
    rewrite (IHbefore fuel (Some (id b)) [simple_block b parentId]) by lia.
    rewrite for_of_cons, bind_run, (IHchild fuel (Some (id b))) by lia.
    cbv beta iota.
    rewrite push_spread_beyond by (now rewrite preorder_length).
    reflexivity.
  - intros s fuel parent out _. simpl. rewrite app_nil_r. reflexivity.
  - intros b bs s t s1 ts s2 _ IHt Hfits _ IHts fuel parent out Hfuel.
    simpl map in Hfuel. apply list_max_cons_le in Hfuel as [Ht Hts].
    rewrite for_of_cons, bind_run, (IHt fuel parent Ht).
    cbv beta iota. rewrite push_spread_within by (now rewrite preorder_length).
    rewrite (IHts fuel parent (out ++ preorder parent t) Hts).
    simpl flat_map. rewrite <- app_assoc. reflexivity.
Qed.

(** What the loop over the children does, given what the recursive calls
    at budget [fuel] return: it ends normally when every sequence went
    in, and is left with the engine's error at the first one that did
    not. *)
Lemma for_of_sound fuel parent
    (IH : forall b parentId (s : State Remote) o s',
        processBlockWithChildren fuel b parentId s = (o, s') ->
        match o with
        | Ret rs => exists t, explores b s t s' /\ depth t <= fuel /\ rs = preorder parentId t
        | Throw _ => False
        | OutOfFuel => True
        end) :
  forall bs out (s : State Remote) out' o s',
    for_of bs (push_child fuel parent) out s = (out', (o, s')) ->
    match o with
    | Ret _ =>
        exists ts, explores_all bs s ts s'
                   /\ list_max (map depth ts) <= fuel
                   /\ out' = out ++ flat_map (preorder parent) ts
    | Throw e =>
        exists before child after ts s2 t,
          bs = before ++ child :: after
          /\ explores_all before s ts s2
          /\ explores child s2 t s'
          /\ spread_limit < records t
          /\ e = spread_error
          /\ list_max (map depth ts) <= fuel
          /\ depth t <= fuel
          /\ out' = out ++ flat_map (preorder parent) ts
    | OutOfFuel => True
    end.
Proof.
  induction bs as [|b bs IHbs]; intros out s out' o s' Hrun.
  - simpl in Hrun. inversion Hrun; subst.
    exists []. split; [constructor|]. split; [simpl; lia|].
    simpl. now rewrite app_nil_r.
  - rewrite for_of_cons, bind_run in Hrun.
    destruct (processBlockWithChildren fuel b parent s) as [[rs|e|] s1] eqn:Eb;
      apply IH in Eb.
    + destruct Eb as (t & Ht & Hd & ->).
      cbv beta iota in Hrun.
      destruct (Nat.le_gt_cases (length (preorder parent t)) spread_limit) as [Hfits|Hover].
      * rewrite push_spread_within in Hrun by assumption.
        rewrite preorder_length in Hfits.
        apply IHbs in Hrun. destruct o as [u|e|]; [| |exact I].
        -- destruct Hrun as (ts & Hts & Hds & ->).
           exists (t :: ts). split; [econstructor; eassumption|].
           split; [simpl; lia|].
           simpl flat_map. now rewrite app_assoc.
        -- destruct Hrun as (before & child & after & ts & s2 & t' & -> & Hts & Ht'
                             & Hover & -> & Hds & Hd' & ->).
           exists (b :: before), child, after, (t :: ts), s2, t'.
           split; [reflexivity|]. split; [econstructor; eassumption|].
           split; [assumption|]. split; [assumption|]. split; [reflexivity|].
           split; [simpl; lia|]. split; [assumption|].
           simpl flat_map. now rewrite app_assoc.
      * rewrite push_spread_beyond in Hrun by assumption.
        rewrite preorder_length in Hover.
        inversion Hrun; subst.
        exists [], b, bs, [], s, t.
        split; [reflexivity|]. split; [constructor|].
        split; [assumption|]. split; [assumption|]. split; [reflexivity|].
        split; [simpl; lia|]. split; [assumption|].
        simpl. now rewrite app_nil_r.
    + contradiction.
    + inversion Hrun; subst. exact I.
Qed.

(** Whatever the flattener returns is the pre-order of a traversal the
    service and the engine allowed; it never throws. *)
Lemma flatten_sound :
  forall fuel b parentId (s : State Remote) o s',
    processBlockWithChildren fuel b parentId s = (o, s') ->
    match o with
    | Ret rs => exists t, explores b s t s' /\ depth t <= fuel /\ rs = preorder parentId t
    | Throw _ => False
    | OutOfFuel => True
    end.
Proof.
  induction fuel as [|fuel IH]; intros b parentId s o s' Hrun.
  - simpl in Hrun. inversion Hrun; subst. exact I.
  - destruct (has_children b) eqn:Hkids.
    + rewrite processBlockWithChildren_children in Hrun by assumption.
      destruct (call (BlocksChildrenList (id b)) s) as [[response|e|] s1] eqn:Hcall.
      * destruct (for_of (results response) (push_child fuel (Some (id b)))
                    [simple_block b parentId] s1) as [out' [o2 s2]] eqn:Hloop.
        apply (@for_of_sound fuel (Some (id b)) IH) in Hloop.
        destruct o2 as [u|e|].
        -- destruct Hloop as (ts & Hts & Hd & ->).
           inversion Hrun; subst.
           exists (Node b ts). split; [econstructor; eassumption|].
           split; [simpl; lia|reflexivity].
        -- destruct Hloop as (before & child & after & ts & s3 & t & Hres & Hts & Ht
                              & Hover & -> & Hds & Hd & ->).
           inversion Hrun; subst.
           exists (Cut b ts t). split; [econstructor; eassumption|].
           split; [simpl; lia|reflexivity].
        -- inversion Hrun; subst. exact I.
      * inversion Hrun; subst.
        exists (Failed b e). split; [now constructor|].
        split; [simpl; lia|reflexivity].
      * inversion Hrun; subst. exact I.
    + rewrite processBlockWithChildren_childless in Hrun by assumption.
      inversion Hrun; subst.
      exists (Leaf b). split; [now constructor|]. split; [simpl; lia|reflexivity].
Qed.

(** *** The page listing *)

Lemma explores_root :
  (forall b (s : State Remote) t s', explores b s t s' -> root t = b)
  /\ (forall bs (s : State Remote) ts s', explores_all bs s ts s' -> map root ts = bs).
Proof.
  apply explores_mutind; intros; simpl; congruence.
Qed.

Lemma for_of_flattens_each fuel parent bs (s : State Remote) rss s' :
  flattens_each fuel parent bs s rss s' ->
  forall out,
    for_of bs (push_child fuel parent) out s = (out ++ concat rss, (Ret tt, s')).
Proof.
  induction 1 as [s|b bs s rs s1 rss s2 Hb Hfits _ IH]; intros out.
  - simpl. now rewrite app_nil_r.
  - rewrite for_of_cons, bind_run, Hb. cbv beta iota.
    rewrite push_spread_within by assumption.
    rewrite IH. simpl concat. now rewrite app_assoc.
Qed.

(** The loop is left at the first block whose sequence the engine
    refuses: what was pushed before stays, nothing after is visited. *)
Lemma for_of_overflow fuel parent before child after (s : State Remote) rss s2 rs s3 :
  flattens_each fuel parent before s rss s2 ->
  processBlockWithChildren fuel child parent s2 = (Ret rs, s3) ->
  spread_limit < length rs ->
  forall out,
    for_of (before ++ child :: after) (push_child fuel parent) out s
    = (out ++ concat rss, (Throw spread_error, s3)).
Proof.
  intros Hbefore Hchild Hover out.
  rewrite for_of_app, (for_of_flattens_each Hbefore out).
  rewrite for_of_cons, bind_run, Hchild. cbv beta iota.
  now rewrite push_spread_beyond.
Qed.

Lemma explores_flattens_each fuel parent bs (s : State Remote) ts s' :
  explores_all bs s ts s' ->
  list_max (map depth ts) <= fuel ->
  flattens_each fuel parent bs s (map (preorder parent) ts) s'.
Proof.
  induction 1 as [s|b bs s t s1 ts s2 Ht Hfits _ IH]; intros Hfuel.
  - constructor.
  - simpl map in Hfuel. apply list_max_cons_le in Hfuel as [Hd Hds].
    simpl. econstructor; [|now rewrite preorder_length|now apply IH].
    now apply (proj1 flatten_complete).
Qed.

(** One unfolding of [getPageBlocks]. *)
Lemma getPageBlocks_run fuel (s : State Remote) :
  getPageBlocks fuel s
  = match call (BlocksChildrenList (pageId s)) s with
    | (Ret response, s1) =>
        match for_of (results response) (push_child fuel None) [] s1 with
        | (blocks, (Ret _, s2)) => (Ret blocks, s2)
        | (_, (Throw error, s2)) =>
            log_and_rethrow "Error retrieving page blocks from Notion:" error s2
        | (_, (OutOfFuel, s2)) => (OutOfFuel, s2)
        end
    | (Throw error, s1) =>
        log_and_rethrow "Error retrieving page blocks from Notion:" error s1
    | (OutOfFuel, s1) => (OutOfFuel, s1)
    end.
Proof.
  unfold getPageBlocks, catch, MonadExc_M, m_catch.
  rewrite bind_run. unfold this_pageId at 1. cbv beta iota.
  rewrite bind_run.
  destruct (call (BlocksChildrenList (pageId s)) s) as [[response|e|] s1]; try reflexivity.
  unfold push_each, getTextFromBlock.
  destruct (for_of (results response) (push_child fuel None) [] s1) as [blocks [[u|e|] s2]];
    reflexivity.
Qed.

Lemma getPageBlocks_flattens fuel (s : State Remote) response s1 rss s2 :
  call (BlocksChildrenList (pageId s)) s = (Ret response, s1) ->
  flattens_each fuel None (results response) s1 rss s2 ->
  getPageBlocks fuel s = (Ret (concat rss), s2).
Proof.
  intros Hcall Hruns. rewrite getPageBlocks_run, Hcall.
  now rewrite (for_of_flattens_each Hruns []).
Qed.

Lemma getPageBlocks_sound fuel (s : State Remote) rs s' :
  getPageBlocks fuel s = (Ret rs, s') ->
  exists response s1 ts,
    call (BlocksChildrenList (pageId s)) s = (Ret response, s1)
    /\ explores_all (results response) s1 ts s'
    /\ list_max (map depth ts) <= fuel
    /\ rs = flat_map (preorder None) ts.
Proof.
  rewrite getPageBlocks_run. intros Hrun.
  destruct (call (BlocksChildrenList (pageId s)) s) as [[response|e|] s1] eqn:Hcall;
    try discriminate Hrun.
  destruct (for_of (results response) (push_child fuel None) [] s1)
    as [blocks [o s2]] eqn:Hloop.
  apply (@for_of_sound fuel None (@flatten_sound fuel)) in Hloop.
  destruct o as [u|e|]; [|discriminate Hrun|discriminate Hrun].
  destruct Hloop as (ts & Hts & Hd & ->). inversion Hrun; subst.
  now exists response, s1, ts.
Qed.

(** When [getPageBlocks] throws: either the listing of the page was
    rejected, or the listing was fulfilled and the sequence of one
    top-level block was more than one [push] can take. *)
Lemma getPageBlocks_throw_inv fuel (s : State Remote) e s' :
  getPageBlocks fuel s = (Throw e, s') ->
  (exists s1,
      call (BlocksChildrenList (pageId s)) s = (Throw e, s1)
      /\ s' = logged (ConsoleError "Error retrieving page blocks from Notion:" e) s1)
  \/ (exists response s1 before child after ts s2 t s3,
         call (BlocksChildrenList (pageId s)) s = (Ret response, s1)
         /\ results response = before ++ child :: after
         /\ explores_all before s1 ts s2
         /\ explores child s2 t s3
         /\ spread_limit < records t
         /\ list_max (map depth ts) <= fuel
         /\ depth t <= fuel
         /\ e = spread_error
         /\ s' = logged (ConsoleError "Error retrieving page blocks from Notion:" e) s3).
Proof.
  rewrite getPageBlocks_run. intros Hrun.
  destruct (call (BlocksChildrenList (pageId s)) s) as [[response|e0|] s1] eqn:Hcall.
  - right.
    destruct (for_of (results response) (push_child fuel None) [] s1)
      as [blocks [o s2]] eqn:Hloop.
    apply (@for_of_sound fuel None (@flatten_sound fuel)) in Hloop.
    destruct o as [u|e1|]; [discriminate Hrun| |discriminate Hrun].
    destruct Hloop as (before & child & after & ts & s3 & t & Hres & Hts & Ht
                       & Hover & -> & Hds & Hd & _).
    inversion Hrun; subst.
    exists response, s1, before, child, after, ts, s3, t, s2.
    repeat split; assumption.
  - left. inversion Hrun; subst. now exists s1.
  - discriminate Hrun.
Qed.

(** A result does not depend on the recursion budget that produced it. *)
Lemma processBlockWithChildren_more_fuel fuel fuel' b parentId (s : State Remote) rs s' :
  processBlockWithChildren fuel b parentId s = (Ret rs, s') ->
  fuel <= fuel' ->
  processBlockWithChildren fuel' b parentId s = (Ret rs, s').
Proof.
  intros Hrun Hle. apply flatten_sound in Hrun as (t & Ht & Hd & ->).
  apply (proj1 flatten_complete _ _ _ _ Ht). lia.
Qed.

Lemma getPageBlocks_complete fuel (s : State Remote) response s1 ts s2 :
  call (BlocksChildrenList (pageId s)) s = (Ret response, s1) ->
  explores_all (results response) s1 ts s2 ->
  list_max (map depth ts) <= fuel ->
  getPageBlocks fuel s = (Ret (flat_map (preorder None) ts), s2).
Proof.
  intros Hcall Hts Hfuel. rewrite getPageBlocks_run, Hcall.
  now rewrite (proj2 flatten_complete _ _ _ _ Hts fuel None [] Hfuel).
Qed.

End TraversalFacts.

(* ===================================================================== *)
(** ** Frame: who writes the [pageId] field *)
(* ===================================================================== *)

Create HintDb frame.

Section Frame.
Context {engine : JsEngine} {Remote : Type} {service : NotionService Remote}.

Lemma keeps_ret {A} (a : A) : keeps_page (ret a : M Remote A).
Proof. intros s. reflexivity. Qed.

Lemma keeps_raise {A} (e : Error) : keeps_page (raise e : M Remote A).
Proof. intros s. reflexivity. Qed.

Lemma keeps_this_pageId : keeps_page (this_pageId (Remote := Remote)).
Proof. intros s. reflexivity. Qed.

Lemma keeps_call (r : Request) : keeps_page (call r).
Proof.
  intros s. unfold call.
  destruct (serve r (remote s)) as [[a|e] remote']; reflexivity.
Qed.

Lemma keeps_log (line : ConsoleLine) : keeps_page (log (Remote := Remote) line).
Proof. intros s. reflexivity. Qed.

Lemma keeps_bind {A B} (c : M Remote A) (k : A -> M Remote B) :
  keeps_page c -> (forall a, keeps_page (k a)) -> keeps_page (x <- c ;; k x).
Proof.
  intros Hc Hk s. rewrite bind_run. specialize (Hc s).
  destruct (c s) as [[a|e|] s1]; simpl in *; [|assumption|assumption].
  now rewrite Hk.
Qed.

Lemma keeps_catch {A} (c : M Remote A) (h : Error -> M Remote A) :
  keeps_page c -> (forall e, keeps_page (h e)) -> keeps_page (catch c h).
Proof.
  intros Hc Hh s. unfold catch, MonadExc_M, m_catch. specialize (Hc s).
  destruct (c s) as [[a|e|] s1]; simpl in *; [assumption| |assumption].
  now rewrite Hh.
Qed.

Lemma keeps_push_spread {A} (out items : list A) :
  keeps_page (push_spread (Remote := Remote) out items).
Proof.
  intros s. unfold push_spread.
  destruct (Nat.leb (length items) spread_limit); reflexivity.
Qed.

Lemma keeps_log_and_rethrow {A} (message : string) (e : Error) :
  keeps_page (log_and_rethrow (A := A) (Remote := Remote) message e).
Proof. intros s. reflexivity. Qed.

#[local] Hint Resolve keeps_ret keeps_raise keeps_this_pageId keeps_call keeps_log
  keeps_log_and_rethrow keeps_bind keeps_catch : frame.

Lemma keeps_for_of {X Acc} (body : X -> Acc -> M Remote Acc) :
  (forall x acc, keeps_page (body x acc)) ->
  forall xs acc s, pageId (snd (snd (for_of xs body acc s))) = pageId s.
Proof.
  intros Hbody. induction xs as [|x xs IH]; intros acc s; [reflexivity|].
  rewrite for_of_cons. specialize (Hbody x acc s).
  destruct (body x acc s) as [[acc'|e|] s1]; simpl in *; [|assumption|assumption].
  now rewrite IH.
Qed.

Lemma keeps_processBlockWithChildren fuel :
  forall b parentId, keeps_page (processBlockWithChildren fuel b parentId).
Proof.
  induction fuel as [|fuel IH]; intros b parentId s; [reflexivity|].
  destruct (has_children b) eqn:Hkids.
  - rewrite processBlockWithChildren_children by assumption.
    pose proof (keeps_call (BlocksChildrenList (id b)) s) as Hcall.
    destruct (call (BlocksChildrenList (id b)) s) as [[response|e|] s1];
      simpl in Hcall; [| exact Hcall | exact Hcall].
    rewrite <- Hcall.
    match goal with
    | |- context [for_of ?xs ?body ?acc0 ?st] =>
        assert (Hloop : pageId (snd (snd (for_of xs body acc0 st))) = pageId st)
          by (apply keeps_for_of; intros; apply keeps_bind;
              [apply IH | intros; apply keeps_push_spread]);
        destruct (for_of xs body acc0 st) as [out' [[u|e|] s2]]
    end; exact Hloop.
  - rewrite processBlockWithChildren_childless by assumption. reflexivity.
Qed.

Lemma keeps_getPageBlocks fuel : keeps_page (getPageBlocks fuel).
Proof.
  intros s. rewrite getPageBlocks_run.
  pose proof (keeps_call (BlocksChildrenList (pageId s)) s) as Hcall.
  destruct (call (BlocksChildrenList (pageId s)) s) as [[response|e|] s1];
    simpl in Hcall; [| exact Hcall | exact Hcall].
  rewrite <- Hcall.
  match goal with
  | |- context [for_of ?xs ?body ?acc0 ?st] =>
      assert (Hloop : pageId (snd (snd (for_of xs body acc0 st))) = pageId st)
        by (apply keeps_for_of; intros; apply keeps_bind;
            [apply keeps_processBlockWithChildren | intros; apply keeps_push_spread]);
      destruct (for_of xs body acc0 st) as [out' [[u|e|] s2]]
  end; exact Hloop.
Qed.

Lemma keeps_getPage : keeps_page (Remote := Remote) getPage.
Proof. unfold getPage. auto 10 with frame. Qed.

Lemma keeps_addText text parentBlock : keeps_page (addText text parentBlock).
Proof. unfold addText. auto 10 with frame. Qed.

Lemma keeps_deleteBlock blockId : keeps_page (deleteBlock blockId).
Proof. unfold deleteBlock. auto 10 with frame. Qed.

Lemma keeps_updateBlock blockId text : keeps_page (updateBlock blockId text).
Proof.
  unfold updateBlock.
  apply keeps_catch; [|auto with frame].
  apply keeps_bind; [auto with frame|]. intros blockInfo.
  apply keeps_bind; [|auto 10 with frame].
  destruct (negb (type blockInfo =? "paragraph")%string);
    [apply keeps_log | apply keeps_ret].
Qed.

(** Over any history of operations the field holds what was set last. *)
Lemma pageId_after_ops (ops : list FacadeOp) : forall s : State Remote,
  pageId (after_ops ops s) = last_set ops (pageId s).
Proof.
  induction ops as [|op ops IH]; intros s; [reflexivity|].
  unfold after_ops in *. cbn [fold_left]. rewrite IH.
  destruct op; cbn [last_set after_op]; try reflexivity; f_equal.
  - apply keeps_getPage.
  - apply keeps_addText.
  - apply keeps_deleteBlock.
  - apply keeps_updateBlock.
  - apply keeps_getPageBlocks.
Qed.

End Frame.


(* ===================================================================== *)
(** ** The plain-text projection *)
(* ===================================================================== *)

Lemma js_or_empty (t : RichTextItem) : js_or (plain_text t) "" = plain_of t.
Proof.
  unfold js_or, plain_of. destruct (plain_text t) as [s|]; [|reflexivity].
  destruct (String.eqb_spec s ""); congruence.
Qed.

Lemma getPlainTextFromRichText_items (items : list RichTextItem) :
  getPlainTextFromRichText (Some items) = String.concat "" (map plain_of items).
Proof.
  unfold getPlainTextFromRichText. f_equal.
  apply map_ext. exact js_or_empty.
Qed.

(** C3. The text of a block whose payload carries a rich text list is the
    concatenation, in order, of the plain text of its items; the text of
    a block without such a list (no payload under its type, or a payload
    without rich text) is its type tag in brackets.  The two blocks of
    the specification give "Hello, world" and "[image]". *)
Theorem C3_plain_text_projection :
  (forall block payload items,
      get_prop (type block) (props block) = Some payload ->
      rich_text payload = Some items ->
      extractTextContent block = String.concat "" (map plain_of items))
  /\ (forall block,
         get_prop (type block) (props block) = None
         \/ (exists payload,
                get_prop (type block) (props block) = Some payload
                /\ rich_text payload = None) ->
         extractTextContent block = ("[" ++ type block ++ "]")%string)
  /\ extractTextContent
       {| id := "b1"; type := "paragraph"; has_children := false;
          props := [("paragraph",
                     {| rich_text := Some [ {| plain_text := Some "Hello, " |};
                                            {| plain_text := Some "world" |} ] |})] |}
     = "Hello, world"
  /\ extractTextContent
       {| id := "b2"; type := "image"; has_children := false;
          props := [("image", {| rich_text := None |})] |}
     = "[image]".
Proof.
  split; [|split; [|split; reflexivity]].
  - intros block payload items Hp Hr. unfold extractTextContent.
    rewrite Hp, Hr. apply getPlainTextFromRichText_items.
  - intros block [Hp|(payload & Hp & Hr)]; unfold extractTextContent.
    + now rewrite Hp.
    + now rewrite Hp, Hr.
Qed.

Lemma C3_plain_text_projection_witness :
  extractTextContent (Memory.paragraph "A" "Intro" false) = "Intro"
  /\ extractTextContent
       {| id := "blank"; type := "paragraph"; has_children := false;
          props := [("paragraph", {| rich_text := Some [] |})] |}
     = ""
  /\ extractTextContent (Memory.image "E") = "[image]"
  /\ extractTextContent {| id := "x"; type := "divider"; has_children := false; props := [] |}
     = "[divider]".
Proof.
  split; [|split; [|split]].
  - exact (proj1 C3_plain_text_projection
             (Memory.paragraph "A" "Intro" false)
             {| rich_text := Some [ {| plain_text := Some "Intro" |} ] |}
             [ {| plain_text := Some "Intro" |} ] eq_refl eq_refl).
  - exact (proj1 C3_plain_text_projection
             {| id := "blank"; type := "paragraph"; has_children := false;
                props := [("paragraph", {| rich_text := Some [] |})] |}
             {| rich_text := Some [] |} [] eq_refl eq_refl).
  - exact (proj1 (proj2 C3_plain_text_projection) (Memory.image "E")
             (or_intror (ex_intro _ {| rich_text := None |} (conj eq_refl eq_refl)))).
  - exact (proj1 (proj2 C3_plain_text_projection)
             {| id := "x"; type := "divider"; has_children := false; props := [] |}
             (or_introl eq_refl)).
Defined.

(* ===================================================================== *)
(** ** The flattener: claims *)
(* ===================================================================== *)

Section FlattenerClaims.
Context {engine : JsEngine} {Remote : Type} {service : NotionService Remote}.

(** C6. A block that declares no children flattens to exactly one
    record, whose [parentBlockId] is the parent the caller supplied, and
    is absent when the block is flattened through the entry point,
    which supplies none.  No request is sent and nothing else changes. *)
Theorem C6_childless_block (fuel : nat) (b : Block) (parentId : option string)
    (s : State Remote) :
  has_children b = false ->
  processBlockWithChildren (S fuel) b parentId s
  = (Ret [ {| blockId := id b;
              text := extractTextContent b;
              blockType := type b;
              parentBlockId := parentId |} ], s)
  /\ getTextFromBlock (S fuel) b s
     = (Ret [ {| blockId := id b;
                 text := extractTextContent b;
                 blockType := type b;
                 parentBlockId := None |} ], s).
Proof.
  intros Hleaf. split; [|unfold getTextFromBlock];
    now apply processBlockWithChildren_childless.
Qed.

Lemma processBlockWithChildren_listed fuel b parentId (s s1 : State Remote)
    (response : ListResponse) rss s2 :
  has_children b = true ->
  call (BlocksChildrenList (id b)) s = (Ret response, s1) ->
  flattens_each fuel (Some (id b)) (results response) s1 rss s2 ->
  processBlockWithChildren (S fuel) b parentId s
  = (Ret (simple_block b parentId :: concat rss), s2).
Proof.
  intros Hkids Hcall Hruns.
  rewrite processBlockWithChildren_children by assumption.
  rewrite Hcall.
  now rewrite (for_of_flattens_each Hruns [simple_block b parentId]).
Qed.

Lemma processBlockWithChildren_overflow fuel b parentId (s s1 : State Remote)
    (response : ListResponse) before child after rss s2 rs s3 :
  has_children b = true ->
  call (BlocksChildrenList (id b)) s = (Ret response, s1) ->
  results response = before ++ child :: after ->
  flattens_each fuel (Some (id b)) before s1 rss s2 ->
  processBlockWithChildren fuel child (Some (id b)) s2 = (Ret rs, s3) ->
  spread_limit < length rs ->
  processBlockWithChildren (S fuel) b parentId s
  = (Ret (simple_block b parentId :: concat rss),
     logged (ConsoleError (children_error_message b) spread_error) s3).
Proof.
  intros Hkids Hcall Hres Hbefore Hchild Hover.
  rewrite processBlockWithChildren_children by assumption.
  rewrite Hcall, Hres.
  now erewrite for_of_overflow by eassumption.
Qed.

(** C2. For a block that declares children and whose children are
    listed.  As long as the flattened sequence of every child is short
    enough for one [push], the output is the block's own record followed
    by the sequence of each child, in the order the listing returned
    them, each child flattened with the block's id as parent; over any
    document the service shows within that limit, at every depth, the
    output is the pre-order of the document, for every recursion budget
    above its depth.  At the first child whose sequence is longer than
    the engine's limit the code leaves the loop instead: the output ends
    with the sequences of the children before it, that child and all
    children after it are missing, and a line saying that fetching the
    children failed is written though the listing was fulfilled. *)
Theorem C2_preorder (b : Block) (parentId : option string)
    (s s1 : State Remote) (response : ListResponse) :
  has_children b = true ->
  call (BlocksChildrenList (id b)) s = (Ret response, s1) ->
  (forall fuel rss s2,
      flattens_each fuel (Some (id b)) (results response) s1 rss s2 ->
      processBlockWithChildren (S fuel) b parentId s
      = (Ret (simple_block b parentId :: concat rss), s2))
  /\ (forall fuel ts s2,
         explores_all (results response) s1 ts s2 ->
         list_max (map depth ts) < fuel ->
         processBlockWithChildren fuel b parentId s
         = (Ret (simple_block b parentId :: flat_map (preorder (Some (id b))) ts), s2))
  /\ (forall fuel before child after rss s2 rs s3,
         results response = before ++ child :: after ->
         flattens_each fuel (Some (id b)) before s1 rss s2 ->
         processBlockWithChildren fuel child (Some (id b)) s2 = (Ret rs, s3) ->
         spread_limit < length rs ->
         processBlockWithChildren (S fuel) b parentId s
         = (Ret (simple_block b parentId :: concat rss),
            logged (ConsoleError (children_error_message b) spread_error) s3)).
Proof.
  intros Hkids Hcall. split; [|split].
  - intros fuel rss s2 Hruns.
    now apply processBlockWithChildren_listed with (s1 := s1) (response := response).
  - intros fuel ts s2 Hts Hfuel.
    apply (proj1 flatten_complete b s (Node b ts) s2); [|simpl; lia].
    econstructor; eassumption.
  - intros fuel before child after rss s2 rs s3 Hres Hbefore Hchild Hover.
    eapply processBlockWithChildren_overflow; eassumption.
Qed.

Lemma flattens_each_app fuel parent bs1 bs2 (s0 s s' : State Remote) rss1 rss2 :
  flattens_each fuel parent bs1 s0 rss1 s ->
  flattens_each fuel parent bs2 s rss2 s' ->
  flattens_each fuel parent (bs1 ++ bs2) s0 (rss1 ++ rss2) s'.
Proof.
  induction 1 as [s|b bs s0 rs s1 rss s Hb Hfits _ IH]; intros H2; simpl.
  - exact H2.
  - econstructor; [exact Hb | exact Hfits | now apply IH].
Qed.

Lemma processBlockWithChildren_failed fuel b parentId e (s s1 : State Remote) :
  has_children b = true ->
  call (BlocksChildrenList (id b)) s = (Throw e, s1) ->
  processBlockWithChildren (S fuel) b parentId s
  = (Ret [simple_block b parentId],
     logged (ConsoleError (children_error_message b) e) s1).
Proof.
  intros Hkids Hcall.
  rewrite processBlockWithChildren_children by assumption.
  now rewrite Hcall.
Qed.

(** C4. When listing the children of [b] fails: the failure is written
    to the console and [b] flattens to its own record alone, whatever
    the engine's limit; flattening never throws.  On an engine whose
    [push] takes at least one element, in the block that holds [b], and
    in the page listing when [b] is at top level, the siblings before and
    after [b] whose sequences are short enough for one [push] are
    flattened as they are anyway and the result is returned. *)
Theorem C4_children_fetch_failure (b : Block) (e : Error) (s s1 : State Remote) :
  has_children b = true ->
  call (BlocksChildrenList (id b)) s = (Throw e, s1) ->
  let s2 := logged (ConsoleError (children_error_message b) e) s1 in
  (forall fuel parentId,
      processBlockWithChildren (S fuel) b parentId s
      = (Ret [simple_block b parentId], s2))
  /\ (forall fuel holder holderParent before after s_start s0 response rss_before
             rss_after s3,
         1 <= spread_limit ->
         has_children holder = true ->
         call (BlocksChildrenList (id holder)) s_start = (Ret response, s0) ->
         results response = before ++ b :: after ->
         flattens_each (S fuel) (Some (id holder)) before s0 rss_before s ->
         flattens_each (S fuel) (Some (id holder)) after s2 rss_after s3 ->
         processBlockWithChildren (S (S fuel)) holder holderParent s_start
         = (Ret (simple_block holder holderParent
                   :: concat rss_before
                   ++ simple_block b (Some (id holder)) :: concat rss_after), s3))
  /\ (forall fuel before after s_start s0 response rss_before rss_after s3,
         1 <= spread_limit ->
         call (BlocksChildrenList (pageId s_start)) s_start = (Ret response, s0) ->
         results response = before ++ b :: after ->
         flattens_each (S fuel) None before s0 rss_before s ->
         flattens_each (S fuel) None after s2 rss_after s3 ->
         getPageBlocks (S fuel) s_start
         = (Ret (concat rss_before ++ simple_block b None :: concat rss_after), s3))
  /\ (forall fuel b' parentId (s' : State Remote) e' s'',
         processBlockWithChildren fuel b' parentId s' <> (Throw e', s'')).
Proof.
  intros Hkids Hcall s2.
  assert (Hown : forall fuel parentId,
             processBlockWithChildren (S fuel) b parentId s
             = (Ret [simple_block b parentId], s2))
    by (intros; now apply processBlockWithChildren_failed).
  assert (Hsiblings : forall fuel parent before after s0 rss_before rss_after s3,
             1 <= spread_limit ->
             flattens_each (S fuel) parent before s0 rss_before s ->
             flattens_each (S fuel) parent after s2 rss_after s3 ->
             flattens_each (S fuel) parent (before ++ b :: after) s0
               (rss_before ++ [simple_block b parent] :: rss_after) s3).
  { intros fuel parent before after s0 rss_before rss_after s3 Hone Hb Ha.
    eapply flattens_each_app; [exact Hb|].
    econstructor; [apply Hown | exact Hone | exact Ha]. }
  split; [exact Hown|]. split; [|split].
  - intros fuel holder holderParent before after s_start s0 response rss_before
      rss_after s3 Hone Hholder Hlist Hres Hb Ha.
    pose proof (Hsiblings _ _ _ _ _ _ _ _ Hone Hb Ha) as Hruns.
    rewrite <- Hres in Hruns.
    erewrite processBlockWithChildren_listed by eassumption.
    rewrite concat_app. reflexivity.
  - intros fuel before after s_start s0 response rss_before rss_after s3 Hone Hlist
      Hres Hb Ha.
    pose proof (Hsiblings _ _ _ _ _ _ _ _ Hone Hb Ha) as Hruns.
    rewrite <- Hres in Hruns.
    erewrite getPageBlocks_flattens by eassumption.
    rewrite concat_app. reflexivity.
  - intros fuel b' parentId s' e' s'' Hrun.
    exact (flatten_sound _ _ _ _ Hrun).
Qed.

End FlattenerClaims.

(* ===================================================================== *)
(** ** Parent links in the output *)
(* ===================================================================== *)

Lemma linked_parent_before rs : linked [] rs = true -> parent_before rs.
Proof.
  intros H i r p Hi Hp.
  destruct (linked_positions rs [] H i Hi Hp) as [[]|Hex]. exact Hex.
Qed.

Section ParentLinks.
Context {engine : JsEngine} {Remote : Type} {service : NotionService Remote}.

(** With a parent supplied by the caller, as in the recursive calls, the
    first record carries that parent and every later one is linked
    inside the sequence. *)
Lemma processBlockWithChildren_linked fuel b parentId (s : State Remote) rs s' :
  processBlockWithChildren fuel b parentId s = (Ret rs, s') ->
  forall seen, known parentId seen -> linked seen rs = true.
Proof.
  intros Hrun seen Hk. apply flatten_sound in Hrun as (t & _ & _ & ->).
  now apply preorder_linked.
Qed.

(** C1. In what the flattener's entry point returns, and in what
    [getPageBlocks] returns, every record with a defined
    [parentBlockId] has a record with that [blockId] at a smaller
    index.  The records without a parent are exactly the top-level
    ones: the record of the block the entry point was given, and, for
    the page listing, the records of the page's own children, in
    order.  Inside the recursion, where the caller supplies the parent,
    the first record carries that parent and every other record is
    linked in the same way. *)
Theorem C1_parent_precedes (fuel : nat) (s : State Remote)
    (rs : list SimpleBlockType) (s' : State Remote) :
  (forall b,
      getTextFromBlock fuel b s = (Ret rs, s') ->
      parent_before rs /\ parentless rs = [simple_block b None])
  /\ (getPageBlocks fuel s = (Ret rs, s') ->
      parent_before rs
      /\ exists response s1,
          call (BlocksChildrenList (pageId s)) s = (Ret response, s1)
          /\ parentless rs = map (fun b => simple_block b None) (results response))
  /\ (forall b parentId,
         processBlockWithChildren fuel b parentId s = (Ret rs, s') ->
         forall i r p,
           nth_error rs i = Some r ->
           parentBlockId r = Some p ->
           (i = 0 /\ parentId = Some p)
           \/ (exists j r', j < i /\ nth_error rs j = Some r' /\ blockId r' = p)).
Proof.
  split; [|split].
  - intros b Hrun. unfold getTextFromBlock in Hrun.
    apply flatten_sound in Hrun as (t & Ht & _ & ->). split.
    + apply linked_parent_before. now apply preorder_linked.
    + rewrite parentless_preorder_top.
      now rewrite (proj1 explores_root _ _ _ _ Ht).
  - intros Hrun.
    apply getPageBlocks_sound in Hrun as (response & s1 & ts & Hcall & Hts & _ & ->).
    split.
    + apply linked_parent_before. now apply flat_map_preorder_linked.
    + exists response, s1. split; [exact Hcall|].
      rewrite parentless_tops.
      rewrite <- (proj2 explores_root _ _ _ _ Hts) at 1.
      now rewrite map_map.
  - intros b parentId Hrun i r p Hi Hp.
    apply flatten_sound in Hrun as (t & _ & _ & ->).
    destruct i as [|i].
    + left. split; [reflexivity|].
      destruct t; simpl in Hi; inversion Hi; subst r; simpl in Hp; now rewrite Hp.
    + right. eapply preorder_tail_linked; eassumption.
Qed.

Lemma getPageBlocks_concat fuel (s : State Remote) response s1 rss s2 :
  call (BlocksChildrenList (pageId s)) s = (Ret response, s1) ->
  flattens_each fuel None (results response) s1 rss s2 ->
  requests s1 = requests s ++ [BlocksChildrenList (pageId s)]
  /\ getPageBlocks fuel s = (Ret (concat rss), s2).
Proof.
  intros Hcall Hruns. split; [|now apply getPageBlocks_flattens with response s1].
  unfold call in Hcall.
  destruct (serve (BlocksChildrenList (pageId s)) (remote s)) as [[a|e] r'];
    inversion Hcall; reflexivity.
Qed.

Lemma getPageBlocks_overflow fuel (s : State Remote) response s1 before child after
    rss s2 rs s3 :
  call (BlocksChildrenList (pageId s)) s = (Ret response, s1) ->
  results response = before ++ child :: after ->
  flattens_each fuel None before s1 rss s2 ->
  processBlockWithChildren fuel child None s2 = (Ret rs, s3) ->
  spread_limit < length rs ->
  getPageBlocks fuel s
  = (Throw spread_error,
     logged (ConsoleError "Error retrieving page blocks from Notion:" spread_error) s3).
Proof.
  intros Hcall Hres Hbefore Hchild Hover.
  rewrite getPageBlocks_run, Hcall, Hres.
  now erewrite for_of_overflow by eassumption.
Qed.

End ParentLinks.

(** C5. [getPageBlocks] lists the children of the configured page with a
    single request and flattens each top-level block in the order
    returned, with no parent.  As long as the sequence of every
    top-level block is short enough for one [push], it returns the
    sequences one after the other; over any document the service shows
    within that limit, that is the pre-order of each top-level tree in
    turn, for every recursion budget that covers their depth.  At the
    first top-level block whose sequence is longer than the engine's
    limit the code throws the engine's error instead, after logging it as
    a failure to retrieve the page blocks, though the listing of the
    page was fulfilled, and returns nothing.  On the page of the scenario
    (A "Intro"; B "Details" holding C "Sub") it returns A, B, C with C's
    parent B and no parent on A and B, after listing P and then B, for
    every budget of two or more. *)
Theorem C5_getPageBlocks :
  (forall (engine : JsEngine) Remote (service : NotionService Remote) fuel
          (s : State Remote) response s1 rss s2,
      call (BlocksChildrenList (pageId s)) s = (Ret response, s1) ->
      flattens_each fuel None (results response) s1 rss s2 ->
      requests s1 = requests s ++ [BlocksChildrenList (pageId s)]
      /\ getPageBlocks fuel s = (Ret (concat rss), s2))
  /\ (forall (engine : JsEngine) Remote (service : NotionService Remote) fuel
             (s : State Remote) response s1 ts s2,
         call (BlocksChildrenList (pageId s)) s = (Ret response, s1) ->
         explores_all (results response) s1 ts s2 ->
         list_max (map depth ts) <= fuel ->
         getPageBlocks fuel s = (Ret (flat_map (preorder None) ts), s2))
  /\ (forall (engine : JsEngine) Remote (service : NotionService Remote) fuel
             (s : State Remote) response s1 before child after rss s2 rs s3,
         call (BlocksChildrenList (pageId s)) s = (Ret response, s1) ->
         results response = before ++ child :: after ->
         flattens_each fuel None before s1 rss s2 ->
         processBlockWithChildren fuel child None s2 = (Ret rs, s3) ->
         spread_limit < length rs ->
         getPageBlocks fuel s
         = (Throw spread_error,
            logged (ConsoleError "Error retrieving page blocks from Notion:"
                      spread_error) s3))
  /\ (forall fuel,
         2 <= fuel ->
         getPageBlocks fuel (Memory.start Memory.scenario)
         = (Ret [ {| blockId := "A"; text := "Intro"; blockType := "paragraph";
                     parentBlockId := None |};
                  {| blockId := "B"; text := "Details"; blockType := "paragraph";
                     parentBlockId := None |};
                  {| blockId := "C"; text := "Sub"; blockType := "paragraph";
                     parentBlockId := Some "B" |} ],
            {| pageId := "P";
               remote := Memory.scenario;
               requests := [BlocksChildrenList "P"; BlocksChildrenList "B"];
               console := [] |})).
Proof.
  split; [|split; [|split]].
  - intros. eapply getPageBlocks_concat; eassumption.
  - intros. eapply getPageBlocks_complete; eassumption.
  - intros. eapply getPageBlocks_overflow; eassumption.
  - intros [|[|fuel]] Hfuel; [lia|lia|]. reflexivity.
Qed.

(* ===================================================================== *)
(** ** The client facade: claims *)
(* ===================================================================== *)

Section FacadeClaims.
Context {engine : JsEngine} {Remote : Type} {service : NotionService Remote}.

Lemma call_run (r : Request) (s : State Remote) :
  call r s
  = match serve r (remote s) with
    | (Fulfilled a, remote') => (Ret a, sent r remote' s)
    | (Rejected e, remote') => (Throw e, sent r remote' s)
    end.
Proof.
  unfold call. destruct (serve r (remote s)) as [[a|e] remote']; reflexivity.
Qed.

Lemma catch_run {A} (c : M Remote A) (h : Error -> M Remote A) (s : State Remote) :
  catch c h s
  = match c s with
    | (Throw e, s') => h e s'
    | other => other
    end.
Proof. reflexivity. Qed.

Lemma addText_run (text : string) (parentBlock : option string) (s : State Remote) :
  let append := BlocksChildrenAppend (js_or parentBlock (pageId s)) [paragraph_block text] in
  addText text parentBlock s
  = match serve append (remote s) with
    | (Fulfilled response, remote') => (Ret response, sent append remote' s)
    | (Rejected e, remote') =>
        (Throw e, logged (ConsoleError "Error adding text to Notion:" e)
                    (sent append remote' s))
    end.
Proof.
  intros append. unfold addText.
  rewrite catch_run, bind_run. unfold this_pageId at 1. cbv beta iota zeta.
  rewrite bind_run, call_run. fold append.
  destruct (serve append (remote s)) as [[response|e] remote']; reflexivity.
Qed.

(** C7. When the block retrieved for [updateBlock] is not a paragraph,
    a warning is written and the update request is sent all the same;
    what the service answers to that request decides the outcome: its
    block is returned, or its error is logged and rethrown.  The
    warning changes nothing else. *)
Theorem C7_update_unsupported_type (blockId text : string) (s : State Remote)
    (blockInfo : Block) (r1 : Remote) :
  serve (BlocksRetrieve blockId) (remote s) = (Fulfilled blockInfo, r1) ->
  type blockInfo <> "paragraph" ->
  let update := BlocksUpdate blockId (paragraph_of text) in
  let warned :=
    logged (ConsoleWarn (unsupported_type_message blockInfo))
      (sent (BlocksRetrieve blockId) r1 s) in
  updateBlock blockId text s
  = match serve update r1 with
    | (Fulfilled response, r2) => (Ret response, sent update r2 warned)
    | (Rejected e, r2) =>
        (Throw e, logged (ConsoleError "Error updating block in Notion:" e)
                    (sent update r2 warned))
    end.
Proof.
  intros Hretrieve Htype update warned. unfold updateBlock.
  rewrite catch_run, bind_run, call_run, Hretrieve. cbv beta iota.
  destruct (String.eqb_spec (type blockInfo) "paragraph") as [Heq|_];
    [contradiction|].
  cbn [negb]. rewrite bind_run.
  change (console_warn (unsupported_type_message blockInfo)
            (sent (BlocksRetrieve blockId) r1 s))
    with (@Ret unit tt, warned).
  cbv beta iota. rewrite bind_run, call_run. fold update.
  change (remote warned) with r1.
  destruct (serve update r1) as [[response|e] r2]; reflexivity.
Qed.

(** C8. [setPageId] and [getPageId] only write and read the [pageId]
    field: no request is sent, nothing is logged, the service is left
    alone.  No other operation of the facade changes the field, however
    it ends.  So after any history of operations on an instance,
    [getPageId] returns the identifier set last: the argument of the
    latest [setPageId], or the one given to the constructor. *)
Theorem C8_page_identifier_state :
  (forall newPageId (s : State Remote),
      setPageId newPageId s
      = (Ret tt, {| pageId := newPageId;
                    remote := remote s;
                    requests := requests s;
                    console := console s |}))
  /\ (forall s : State Remote, getPageId s = (Ret (pageId s), s))
  /\ keeps_page (Remote := Remote) getPage
  /\ (forall text parentBlock, keeps_page (addText text parentBlock))
  /\ (forall blockId, keeps_page (deleteBlock blockId))
  /\ (forall blockId text, keeps_page (updateBlock blockId text))
  /\ (forall fuel, keeps_page (getPageBlocks fuel))
  /\ (forall config (r : Remote) ops,
         fst (getPageId (after_ops ops (NotionWrapper_new config r)))
         = Ret (last_set ops (cfg_pageId config))).
Proof.
  split; [reflexivity|]. split; [reflexivity|].
  split; [exact keeps_getPage|].
  split; [exact keeps_addText|].
  split; [exact keeps_deleteBlock|].
  split; [exact keeps_updateBlock|].
  split; [exact keeps_getPageBlocks|].
  intros config r ops. unfold getPageId, this_pageId. cbn [fst].
  now rewrite pageId_after_ops.
Qed.

(** C9. An empty parent-block identifier is treated by [addText] as no
    parent at all: either way the append request goes to the
    configured page. *)
Theorem C9_addText_empty_parent (text : string) (s : State Remote) :
  addText text (Some "") s = addText text None s
  /\ requests (snd (addText text (Some "") s))
     = requests s ++ [BlocksChildrenAppend (pageId s) [paragraph_block text]].
Proof.
  split.
  - rewrite !addText_run. reflexivity.
  - rewrite addText_run. cbv zeta. cbn [js_or String.eqb].
    destruct (serve (BlocksChildrenAppend (pageId s) [paragraph_block text]) (remote s))
      as [[response|e] remote']; reflexivity.
Qed.

(** C10. Whatever the text and the parent, [addText] sends exactly one
    request, an append with exactly one child; the child is a block of
    type paragraph with a single rich text item, of type text, whose
    content is the text given, unchanged. *)
Theorem C10_addText_single_paragraph (text : string) (parentBlock : option string)
    (s : State Remote) :
  exists target child item,
    requests (snd (addText text parentBlock s))
    = requests s ++ [BlocksChildrenAppend target [child]]
    /\ br_object child = "block"
    /\ br_type child = "paragraph"
    /\ rt_items (br_paragraph child) = [item]
    /\ rt_type item = "text"
    /\ content (rt_text item) = text.
Proof.
  exists (js_or parentBlock (pageId s)), (paragraph_block text), (text_item text).
  split; [|repeat split].
  rewrite addText_run. cbv zeta.
  destruct (serve (BlocksChildrenAppend (js_or parentBlock (pageId s))
                     [paragraph_block text]) (remote s))
    as [[response|e] remote']; reflexivity.
Qed.

End FacadeClaims.

(* ===================================================================== *)
(** ** Concrete runs on the in-memory service *)
(* ===================================================================== *)

Lemma within_memory_limit (n : nat) : Nat.leb n 1000 = true -> n <= spread_limit.
Proof. intros H. now apply Nat.leb_le. Qed.

(** On the long document L flattens to its 1112 records, from any
    state over that store and under any parent. *)
Lemma long_list_flattens (parent : option string) (s0 : State Memory.Store) :
  remote s0 = Memory.long ->
  processBlockWithChildren 3 Memory.L parent s0
  = (Ret (Memory.long_records parent),
     fold_left (fun s k => sent (BlocksChildrenList (Memory.group_id k)) Memory.long s)
       (seq 1 11) (sent (BlocksChildrenList "L") Memory.long s0)).
Proof.
  destruct s0 as [page r reqs out]. simpl. intros ->.
  vm_compute. reflexivity.
Qed.

Lemma long_list_records (parent : option string) :
  length (Memory.long_records parent) = 1112.
Proof. vm_compute. reflexivity. Qed.

Lemma C6_childless_block_witness :
  processBlockWithChildren 1 Memory.A (Some "P") (Memory.start Memory.scenario)
  = (Ret [ {| blockId := "A"; text := "Intro"; blockType := "paragraph";
              parentBlockId := Some "P" |} ],
     Memory.start Memory.scenario).
Proof.
  exact (proj1 (C6_childless_block 0 Memory.A (Some "P")
                  (Memory.start Memory.scenario) eq_refl)).
Defined.

Lemma C2_preorder_witness :
  processBlockWithChildren 2 Memory.B None (Memory.start Memory.scenario)
  = (Ret [ {| blockId := "B"; text := "Details"; blockType := "paragraph";
              parentBlockId := None |};
           {| blockId := "C"; text := "Sub"; blockType := "paragraph";
              parentBlockId := Some "B" |} ],
     {| pageId := "P";
        remote := Memory.scenario;
        requests := [BlocksChildrenList "B"];
        console := [] |})
  /\ processBlockWithChildren 5 Memory.B (Some "P") (Memory.start Memory.scenario)
     = (Ret [ {| blockId := "B"; text := "Details"; blockType := "paragraph";
                 parentBlockId := Some "P" |};
              {| blockId := "C"; text := "Sub"; blockType := "paragraph";
                 parentBlockId := Some "B" |} ],
        {| pageId := "P";
           remote := Memory.scenario;
           requests := [BlocksChildrenList "B"];
           console := [] |})
  /\ @processBlockWithChildren Memory.narrow _ _ 3 Memory.H None
       (Memory.start Memory.broken)
     = (Ret [ {| blockId := "H"; text := "Holder"; blockType := "paragraph";
                 parentBlockId := None |};
              {| blockId := "A"; text := "Intro"; blockType := "paragraph";
                 parentBlockId := Some "H" |};
              {| blockId := "B"; text := "Details"; blockType := "paragraph";
                 parentBlockId := Some "H" |} ],
        {| pageId := "P";
           remote := Memory.broken;
           requests := [BlocksChildrenList "H"; BlocksChildrenList "B";
                        BlocksChildrenList "D"];
           console := [ConsoleError "Error fetching children for block B:"
                         Memory.not_found;
                       ConsoleError "Error fetching children for block H:"
                         Memory.range_error] |})
  /\ processBlockWithChildren 4 Memory.W None (Memory.start Memory.long)
     = (Ret [ {| blockId := "W"; text := "Wrapper"; blockType := "paragraph";
                 parentBlockId := None |} ],
        {| pageId := "P";
           remote := Memory.long;
           requests := BlocksChildrenList "W" :: BlocksChildrenList "L"
                       :: map (fun k => BlocksChildrenList (Memory.group_id k))
                            (seq 1 11);
           console := [ConsoleError "Error fetching children for block W:"
                         Memory.range_error] |})
  /\ length (Memory.long_records (Some "W")) = 1112.
Proof.
  assert (Hwrapper : call (BlocksChildrenList (id Memory.W)) (Memory.start Memory.long)
                     = (Ret {| results := [Memory.L] |},
                        sent (BlocksChildrenList "W") Memory.long
                          (Memory.start Memory.long)))
    by reflexivity.
  assert (Hcall : call (BlocksChildrenList (id Memory.B)) (Memory.start Memory.scenario)
                  = (Ret {| results := [Memory.C] |},
                     sent (BlocksChildrenList "B") Memory.scenario
                       (Memory.start Memory.scenario)))
    by reflexivity.
  assert (Hholder : call (BlocksChildrenList (id Memory.H)) (Memory.start Memory.broken)
                    = (Ret {| results := [Memory.A; Memory.B; Memory.D] |},
                       sent (BlocksChildrenList "H") Memory.broken
                         (Memory.start Memory.broken)))
    by reflexivity.
  split; [|split; [|split; [|split; [|apply long_list_records]]]].
  - apply (proj1 (@C2_preorder _ _ _ Memory.B None _ _ _ eq_refl Hcall)
             1 [[simple_block Memory.C (Some "B")]]).
    econstructor; [reflexivity | now apply within_memory_limit | constructor].
  - apply (proj1 (proj2 (@C2_preorder _ _ _ Memory.B (Some "P") _ _ _ eq_refl Hcall))
             5 [Leaf Memory.C]).
    + econstructor; [now constructor | now apply within_memory_limit | constructor].
    + simpl. lia.
  - apply (proj2 (proj2 (@C2_preorder Memory.narrow _ _ Memory.H None _ _ _
                           eq_refl Hholder))
             2 [Memory.A; Memory.B] Memory.D []
             [[simple_block Memory.A (Some "H")]; [simple_block Memory.B (Some "H")]]
             (logged (ConsoleError "Error fetching children for block B:"
                        Memory.not_found)
                (sent (BlocksChildrenList "B") Memory.broken
                   (sent (BlocksChildrenList "H") Memory.broken
                      (Memory.start Memory.broken))))
             [simple_block Memory.D (Some "H"); simple_block Memory.E (Some "D")]
             (sent (BlocksChildrenList "D") Memory.broken
                (logged (ConsoleError "Error fetching children for block B:"
                           Memory.not_found)
                   (sent (BlocksChildrenList "B") Memory.broken
                      (sent (BlocksChildrenList "H") Memory.broken
                         (Memory.start Memory.broken)))))).
    + reflexivity.
    + econstructor; [reflexivity | apply le_n |].
      econstructor; [reflexivity | apply le_n | constructor].
    + reflexivity.
    + apply le_n.
  - refine (proj2 (proj2 (@C2_preorder _ _ _ Memory.W None _ _ _ eq_refl Hwrapper))
             3 [] Memory.L [] []
             (sent (BlocksChildrenList "W") Memory.long (Memory.start Memory.long))
             (Memory.long_records (Some "W"))
             (fold_left (fun s k => sent (BlocksChildrenList (Memory.group_id k))
                                      Memory.long s)
                (seq 1 11)
                (sent (BlocksChildrenList "L") Memory.long
                   (sent (BlocksChildrenList "W") Memory.long
                      (Memory.start Memory.long))))
             _ _ _ _).
    + reflexivity.
    + constructor.
    + apply long_list_flattens. reflexivity.
    + rewrite long_list_records. apply Nat.ltb_lt. reflexivity.
Defined.

Lemma C4_children_fetch_failure_witness :
  getPageBlocks 2 (Memory.start Memory.broken)
  = (Ret [ {| blockId := "A"; text := "Intro"; blockType := "paragraph";
              parentBlockId := None |};
           {| blockId := "B"; text := "Details"; blockType := "paragraph";
              parentBlockId := None |};
           {| blockId := "D"; text := "More"; blockType := "paragraph";
              parentBlockId := None |};
           {| blockId := "E"; text := "[image]"; blockType := "image";
              parentBlockId := Some "D" |} ],
     {| pageId := "P";
        remote := Memory.broken;
        requests := [BlocksChildrenList "P"; BlocksChildrenList "B";
                     BlocksChildrenList "D"];
        console := [ConsoleError "Error fetching children for block B:"
                      Memory.not_found] |})
  /\ processBlockWithChildren 3 Memory.H None (Memory.start Memory.broken)
     = (Ret [ {| blockId := "H"; text := "Holder"; blockType := "paragraph";
                 parentBlockId := None |};
              {| blockId := "A"; text := "Intro"; blockType := "paragraph";
                 parentBlockId := Some "H" |};
              {| blockId := "B"; text := "Details"; blockType := "paragraph";
                 parentBlockId := Some "H" |};
              {| blockId := "D"; text := "More"; blockType := "paragraph";
                 parentBlockId := Some "H" |};
              {| blockId := "E"; text := "[image]"; blockType := "image";
                 parentBlockId := Some "D" |} ],
        {| pageId := "P";
           remote := Memory.broken;
           requests := [BlocksChildrenList "H"; BlocksChildrenList "B";
                        BlocksChildrenList "D"];
           console := [ConsoleError "Error fetching children for block B:"
                         Memory.not_found] |})
  /\ processBlockWithChildren 1 Memory.B (Some "H") (Memory.start Memory.broken)
     = (Ret [ {| blockId := "B"; text := "Details"; blockType := "paragraph";
                 parentBlockId := Some "H" |} ],
        {| pageId := "P";
           remote := Memory.broken;
           requests := [BlocksChildrenList "B"];
           console := [ConsoleError "Error fetching children for block B:"
                         Memory.not_found] |}).
Proof.
  split; [|split].
  - pose proof (@C4_children_fetch_failure _ _ _ Memory.B Memory.not_found
                  (sent (BlocksChildrenList "P") Memory.broken (Memory.start Memory.broken))
                  _ eq_refl eq_refl) as (_ & _ & Hpage & _).
    apply (Hpage 1 [Memory.A] [Memory.D] (Memory.start Memory.broken)
             (sent (BlocksChildrenList "P") Memory.broken (Memory.start Memory.broken))
             {| results := [Memory.A; Memory.B; Memory.D] |}
             [[simple_block Memory.A None]]
             [[simple_block Memory.D None; simple_block Memory.E (Some "D")]]).
    + now apply within_memory_limit.
    + reflexivity.
    + reflexivity.
    + econstructor; [reflexivity | now apply within_memory_limit | constructor].
    + econstructor; [reflexivity | now apply within_memory_limit | constructor].
  - pose proof (@C4_children_fetch_failure _ _ _ Memory.B Memory.not_found
                  (sent (BlocksChildrenList "H") Memory.broken (Memory.start Memory.broken))
                  _ eq_refl eq_refl) as (_ & Hholder & _ & _).
    apply (Hholder 1 Memory.H None [Memory.A] [Memory.D] (Memory.start Memory.broken)
             (sent (BlocksChildrenList "H") Memory.broken (Memory.start Memory.broken))
             {| results := [Memory.A; Memory.B; Memory.D] |}
             [[simple_block Memory.A (Some "H")]]
             [[simple_block Memory.D (Some "H"); simple_block Memory.E (Some "D")]]).
    + now apply within_memory_limit.
    + reflexivity.
    + reflexivity.
    + reflexivity.
    + econstructor; [reflexivity | now apply within_memory_limit | constructor].
    + econstructor; [reflexivity | now apply within_memory_limit | constructor].
  - pose proof (@C4_children_fetch_failure _ _ _ Memory.B Memory.not_found
                  (Memory.start Memory.broken) _ eq_refl eq_refl) as (Hown & _).
    exact (Hown 0 (Some "H")).
Defined.

Lemma C1_parent_precedes_witness :
  parent_before
    [ {| blockId := "A"; text := "Intro"; blockType := "paragraph";
         parentBlockId := None |};
      {| blockId := "B"; text := "Details"; blockType := "paragraph";
         parentBlockId := None |};
      {| blockId := "C"; text := "Sub"; blockType := "paragraph";
         parentBlockId := Some "B" |} ]
  /\ parent_before
       [ {| blockId := "B"; text := "Details"; blockType := "paragraph";
            parentBlockId := None |};
         {| blockId := "C"; text := "Sub"; blockType := "paragraph";
            parentBlockId := Some "B" |} ]
  /\ ((0 = 0 /\ Some "B" = Some "B")
      \/ exists j r',
          j < 0
          /\ nth_error [simple_block Memory.C (Some "B")] j = Some r'
          /\ blockId r' = "B").
Proof.
  split; [|split].
  - exact (proj1 (proj1 (proj2 (@C1_parent_precedes _ _ _ 2 (Memory.start Memory.scenario)
                                  _ _))
                    eq_refl)).
  - exact (proj1 (proj1 (@C1_parent_precedes _ _ _ 2 (Memory.start Memory.scenario) _ _)
                    Memory.B eq_refl)).
  - exact (proj2 (proj2 (@C1_parent_precedes _ _ _ 1 (Memory.start Memory.scenario)
                           [simple_block Memory.C (Some "B")]
                           (Memory.start Memory.scenario)))
             Memory.C (Some "B") eq_refl 0 (simple_block Memory.C (Some "B")) "B"
             eq_refl eq_refl).
Defined.

Lemma C5_getPageBlocks_witness :
  getPageBlocks 3 (Memory.start Memory.scenario)
  = (Ret [ {| blockId := "A"; text := "Intro"; blockType := "paragraph";
              parentBlockId := None |};
           {| blockId := "B"; text := "Details"; blockType := "paragraph";
              parentBlockId := None |};
           {| blockId := "C"; text := "Sub"; blockType := "paragraph";
              parentBlockId := Some "B" |} ],
     {| pageId := "P";
        remote := Memory.scenario;
        requests := [BlocksChildrenList "P"; BlocksChildrenList "B"];
        console := [] |})
  /\ fst (getPageBlocks 2 (Memory.start Memory.broken))
     = Ret [ {| blockId := "A"; text := "Intro"; blockType := "paragraph";
                parentBlockId := None |};
             {| blockId := "B"; text := "Details"; blockType := "paragraph";
                parentBlockId := None |};
             {| blockId := "D"; text := "More"; blockType := "paragraph";
                parentBlockId := None |};
             {| blockId := "E"; text := "[image]"; blockType := "image";
                parentBlockId := Some "D" |} ]
  /\ fst (getPageBlocks 7 (Memory.start Memory.scenario))
     = Ret (flat_map (preorder None) [Leaf Memory.A; Node Memory.B [Leaf Memory.C]])
  /\ @getPageBlocks Memory.narrow _ _ 2 (Memory.start Memory.scenario)
     = (Throw Memory.range_error,
        {| pageId := "P";
           remote := Memory.scenario;
           requests := [BlocksChildrenList "P"; BlocksChildrenList "B"];
           console := [ConsoleError "Error retrieving page blocks from Notion:"
                         Memory.range_error] |})
  /\ getPageBlocks 3 (Memory.start Memory.long)
     = (Throw Memory.range_error,
        {| pageId := "P";
           remote := Memory.long;
           requests := BlocksChildrenList "P" :: BlocksChildrenList "L"
                       :: map (fun k => BlocksChildrenList (Memory.group_id k))
                            (seq 1 11);
           console := [ConsoleError "Error retrieving page blocks from Notion:"
                         Memory.range_error] |}).
Proof.
  split; [|split; [|split; [|split]]].
  - apply (proj2 (proj2 (proj2 C5_getPageBlocks)) 3). lia.
  - refine (f_equal fst
              (proj2 (proj1 C5_getPageBlocks _ _ _ 2 (Memory.start Memory.broken)
                        {| results := [Memory.A; Memory.B; Memory.D] |}
                        (sent (BlocksChildrenList "P") Memory.broken
                           (Memory.start Memory.broken))
                        [[simple_block Memory.A None];
                         [simple_block Memory.B None];
                         [simple_block Memory.D None; simple_block Memory.E (Some "D")]]
                        _ eq_refl _))).
    econstructor; [reflexivity | now apply within_memory_limit |].
    econstructor; [reflexivity | now apply within_memory_limit |].
    econstructor; [reflexivity | now apply within_memory_limit |].
    constructor.
  - refine (f_equal fst
              (proj1 (proj2 C5_getPageBlocks) _ _ _ 7 (Memory.start Memory.scenario)
                 {| results := [Memory.A; Memory.B] |}
                 (sent (BlocksChildrenList "P") Memory.scenario
                    (Memory.start Memory.scenario))
                 [Leaf Memory.A; Node Memory.B [Leaf Memory.C]]
                 (sent (BlocksChildrenList "B") Memory.scenario
                    (sent (BlocksChildrenList "P") Memory.scenario
                       (Memory.start Memory.scenario)))
                 eq_refl _ _)).
    + econstructor; [now constructor | now apply within_memory_limit |].
      econstructor; [|now apply within_memory_limit|constructor].
      eapply explores_node with (response := {| results := [Memory.C] |});
        [reflexivity | reflexivity |].
      econstructor; [now constructor | now apply within_memory_limit | constructor].
    + simpl. lia.
  - apply (proj1 (proj2 (proj2 C5_getPageBlocks)) Memory.narrow _ _ 2
             (Memory.start Memory.scenario)
             {| results := [Memory.A; Memory.B] |}
             (sent (BlocksChildrenList "P") Memory.scenario
                (Memory.start Memory.scenario))
             [Memory.A] Memory.B []
             [[simple_block Memory.A None]]
             (sent (BlocksChildrenList "P") Memory.scenario
                (Memory.start Memory.scenario))
             [simple_block Memory.B None; simple_block Memory.C (Some "B")]
             (sent (BlocksChildrenList "B") Memory.scenario
                (sent (BlocksChildrenList "P") Memory.scenario
                   (Memory.start Memory.scenario)))).
    + reflexivity.
    + reflexivity.
    + econstructor; [reflexivity | apply le_n | constructor].
    + reflexivity.
    + apply le_n.
  - refine (proj1 (proj2 (proj2 C5_getPageBlocks)) _ _ _ 3
             (Memory.start Memory.long)
             {| results := [Memory.L] |}
             (sent (BlocksChildrenList "P") Memory.long (Memory.start Memory.long))
             [] Memory.L [] []
             (sent (BlocksChildrenList "P") Memory.long (Memory.start Memory.long))
             (Memory.long_records None)
             (fold_left (fun s k => sent (BlocksChildrenList (Memory.group_id k))
                                      Memory.long s)
                (seq 1 11)
                (sent (BlocksChildrenList "L") Memory.long
                   (sent (BlocksChildrenList "P") Memory.long
                      (Memory.start Memory.long))))
             _ _ _ _ _).
    + reflexivity.
    + reflexivity.
    + constructor.
    + apply long_list_flattens. reflexivity.
    + rewrite long_list_records. apply Nat.ltb_lt. reflexivity.
Defined.

Lemma C7_update_unsupported_type_witness :
  updateBlock "E" "hi" (Memory.start Memory.broken)
  = (Throw Memory.validation_error,
     {| pageId := "P";
        remote := Memory.broken;
        requests := [BlocksRetrieve "E"; BlocksUpdate "E" (paragraph_of "hi")];
        console :=
          [ConsoleWarn
             "Block type image is not supported for text updates. Only paragraph blocks can be updated.";
           ConsoleError "Error updating block in Notion:" Memory.validation_error] |}).
Proof.
  assert (Hretrieve : serve (BlocksRetrieve "E") (remote (Memory.start Memory.broken))
                      = (Fulfilled Memory.E, Memory.broken)) by reflexivity.
  assert (Htype : type Memory.E <> "paragraph") by discriminate.
  rewrite (C7_update_unsupported_type "hi" (Memory.start Memory.broken) Hretrieve Htype).
  reflexivity.
Defined.

(* ===================================================================== *)
(** ** Further properties: the plain-text projection *)
(* ===================================================================== *)

Lemma append_empty_r (s : string) : (s ++ "")%string = s.
Proof. induction s as [|c s IH]; simpl; [reflexivity | now rewrite IH]. Qed.

Lemma append_assoc (a b c : string) : ((a ++ b) ++ c)%string = (a ++ b ++ c)%string.
Proof. induction a as [|x a IH]; simpl; [reflexivity | now rewrite IH]. Qed.

Lemma concat_empty_cons (x : string) (xs : list string) :
  String.concat "" (x :: xs) = (x ++ String.concat "" xs)%string.
Proof.
  destruct xs as [|y ys]; simpl; [now rewrite append_empty_r | reflexivity].
Qed.

Lemma concat_empty_app (xs ys : list string) :
  String.concat "" (xs ++ ys) = (String.concat "" xs ++ String.concat "" ys)%string.
Proof.
  induction xs as [|x xs IH]; [reflexivity|].
  rewrite <- app_comm_cons, !concat_empty_cons, IH. now rewrite append_assoc.
Qed.

(** X1. The plain text of a rich text list is built item by item: the
    text of two lists put end to end is the text of the first followed by
    the text of the second, the text of a single item is its plain text,
    and an empty or missing list gives the empty string. *)
Theorem getPlainTextFromRichText_app (items1 items2 : list RichTextItem) :
  getPlainTextFromRichText (Some (items1 ++ items2))
  = (getPlainTextFromRichText (Some items1)
       ++ getPlainTextFromRichText (Some items2))%string
  /\ (forall t, getPlainTextFromRichText (Some [t]) = plain_of t)
  /\ getPlainTextFromRichText (Some []) = ""
  /\ getPlainTextFromRichText None = "".
Proof.
  split; [|split; [|split; reflexivity]].
  - rewrite !getPlainTextFromRichText_items, map_app. apply concat_empty_app.
  - intros t. rewrite getPlainTextFromRichText_items. reflexivity.
Qed.

(** X2. Items whose plain text is missing or empty add nothing: leaving
    them out of the list does not change the text, and the length of the
    text is the sum of the lengths of the items' plain texts. *)
Theorem getPlainTextFromRichText_skips_empty (items : list RichTextItem) :
  getPlainTextFromRichText
    (Some (filter (fun t => truthy (plain_text t)) items))
  = getPlainTextFromRichText (Some items)
  /\ String.length (getPlainTextFromRichText (Some items))
     = list_sum (map (fun t => String.length (plain_of t)) items).
Proof.
  rewrite !getPlainTextFromRichText_items. split.
  - induction items as [|t items IH]; [reflexivity|].
    cbn [filter map]. rewrite concat_empty_cons.
    destruct (plain_text t) as [p|] eqn:Ht; cbn [truthy].
    + destruct (String.eqb_spec p "") as [->|Hp]; cbn [negb].
      * rewrite IH. unfold plain_of at 2. now rewrite Ht.
      * cbn [map]. now rewrite concat_empty_cons, IH.
    + rewrite IH. unfold plain_of at 2. now rewrite Ht.
  - induction items as [|t items IH]; [reflexivity|].
    cbn [map]. rewrite concat_empty_cons.
    change (list_sum (String.length (plain_of t)
                        :: map (fun t => String.length (plain_of t)) items))
      with (String.length (plain_of t)
            + list_sum (map (fun t => String.length (plain_of t)) items)).
    rewrite <- IH. clear IH.
    generalize (String.concat "" (map plain_of items)) as rest.
    generalize (plain_of t) as p.
    induction p as [|c p IHp]; intros rest; simpl; [reflexivity | now rewrite IHp].
Qed.
(* ===================================================================== *)
(** ** Further properties: what the flattener sends and writes *)
(* ===================================================================== *)

Lemma failures_le_listed {engine : JsEngine} t :
  length (failures t) <= length (listed t).
Proof.
  induction t as [b|b e|b ts IH|b ts dropped IH IHdropped] using Tree_ind_forall;
    simpl; try lia.
  - apply le_S. induction IH as [|t ts Ht _ IHts]; [apply le_n|].
    simpl. rewrite !length_app. lia.
  - rewrite !length_app. simpl.
    assert (Hts : length (flat_map failures ts) <= length (flat_map listed ts)).
    { induction IH as [|t ts Ht _ IHts]; [apply le_n|].
      simpl. rewrite !length_app. lia. }
    lia.
Qed.

Lemma intact_listed t : intact t = true ->
  forall parentId,
    incl (listed t) (map blockId (preorder parentId t))
    /\ length (listed t) <= length (preorder parentId t).
Proof.
  induction t as [b|b e|b ts IH|b ts dropped IH IHdropped] using Tree_ind_forall;
    intros Hintact parentId; simpl in *; try discriminate Hintact.
  - split; [intros x []|lia].
  - split; [intros x Hx; exact Hx|lia].
  - assert (Hts : incl (flat_map listed ts)
                    (map blockId (flat_map (preorder (Some (id b))) ts))
                  /\ length (flat_map listed ts)
                     <= length (flat_map (preorder (Some (id b))) ts)).
    { induction IH as [|t ts Ht _ IHts]; [split; [intros x []|apply le_n]|].
      simpl in Hintact. apply andb_prop in Hintact as [Hhead Htail].
      destruct (Ht Hhead (Some (id b))) as [Hin Hlen].
      destruct (IHts Htail) as [Hins Hlens].
      simpl. rewrite map_app, !length_app. split; [|lia].
      intros x Hx. apply in_app_or in Hx as [Hx|Hx]; apply in_or_app.
      - left. now apply Hin.
      - right. now apply Hins. }
    destruct Hts as [Hin Hlen]. split; [|lia].
    intros x [->|Hx]; [now left|right; now apply Hin].
Qed.

Lemma preorder_head_tail t parentId parentId' :
  preorder parentId t = simple_block (root t) parentId :: tl (preorder parentId' t).
Proof. destruct t; reflexivity. Qed.

Section TraceFacts.
Context {engine : JsEngine} {Remote : Type} {service : NotionService Remote}.

Lemma call_trace (r : Request) (s : State Remote) o s1 :
  call r s = (o, s1) ->
  requests s1 = requests s ++ [r] /\ console s1 = console s.
Proof.
  rewrite call_run.
  destruct (serve r (remote s)) as [[a|e] remote']; intros H; inversion H; now split.
Qed.

(** A traversal sends one listing request per block that declares
    children and that it reached, and writes one line per listing that
    failed and one per loop that was cut short. *)
Lemma explores_trace :
  (forall b (s : State Remote) t s',
      explores b s t s' ->
      requests s' = requests s ++ map BlocksChildrenList (listed t)
      /\ console s' = console s ++ failures t)
  /\ (forall bs (s : State Remote) ts s',
         explores_all bs s ts s' ->
         requests s' = requests s ++ map BlocksChildrenList (flat_map listed ts)
         /\ console s' = console s ++ flat_map failures ts).
Proof.
  apply explores_mutind.
  - intros b s _. simpl. now rewrite !app_nil_r.
  - intros b s e s1 _ Hcall. apply call_trace in Hcall as [Hr Hc].
    simpl. now rewrite Hr, Hc.
  - intros b s response s1 ts s2 _ Hcall _ [Hr Hc].
    apply call_trace in Hcall as [Hr1 Hc1].
    simpl. rewrite Hr, Hc, Hr1, Hc1, <- app_assoc. now split.
  - intros b s response s1 before child after ts s2 t s3 _ Hcall _ _ [Hr Hc]
      _ [Hr3 Hc3] _.
    apply call_trace in Hcall as [Hr1 Hc1].
    simpl. rewrite Hr3, Hc3, Hr, Hc, Hr1, Hc1, !map_app, <- !app_assoc. now split.
  - intros s. simpl. now rewrite !app_nil_r.
  - intros b bs s t s1 ts s2 _ [Hr1 Hc1] _ _ [Hr2 Hc2].
    simpl. rewrite Hr2, Hc2, Hr1, Hc1, map_app, <- !app_assoc. now split.
Qed.

(** X3. Whenever the flattener returns, it has sent children-listing
    requests only: one for each block that declares children and that
    the traversal reached, in the order visited.  It has written one
    console line for each listing that failed and one for each loop cut
    short by a child sequence too long for one [push], and nothing
    else, so never more lines than requests.  Where no loop was cut
    short, every request is for a block whose record is in the output,
    so there are never more requests than records; the records of a
    sequence that was dropped are not in the output although the
    requests below them were sent. *)
Theorem processBlockWithChildren_trace fuel b parentId (s : State Remote) rs s' :
  processBlockWithChildren fuel b parentId s = (Ret rs, s') ->
  exists t,
    explores b s t s'
    /\ rs = preorder parentId t
    /\ requests s' = requests s ++ map BlocksChildrenList (listed t)
    /\ console s' = console s ++ failures t
    /\ length (failures t) <= length (listed t)
    /\ (intact t = true ->
        incl (listed t) (map blockId rs) /\ length (listed t) <= length rs).
Proof.
  intros Hrun. apply flatten_sound in Hrun as (t & Ht & _ & ->).
  destruct (proj1 explores_trace _ _ _ _ Ht) as [Hr Hc].
  exists t. repeat split; try assumption.
  - apply failures_le_listed.
  - now apply intact_listed.
  - now apply intact_listed.
Qed.

(** X4. The parent argument of the flattener only labels the first
    record: the output always starts with the block's own record carrying
    that parent, and with another parent the same requests are sent and
    the same records follow. *)
Theorem processBlockWithChildren_parent_only_first fuel b parentId (s : State Remote)
    rs s' :
  processBlockWithChildren fuel b parentId s = (Ret rs, s') ->
  rs = simple_block b parentId :: tl rs
  /\ forall parentId',
       processBlockWithChildren fuel b parentId' s
       = (Ret (simple_block b parentId' :: tl rs), s').
Proof.
  intros Hrun. apply flatten_sound in Hrun as (t & Ht & Hd & ->).
  pose proof (proj1 explores_root _ _ _ _ Ht) as Hroot. split.
  - rewrite <- Hroot. apply preorder_head_tail.
  - intros parentId'.
    rewrite (proj1 flatten_complete _ _ _ _ Ht fuel parentId' Hd).
    now rewrite <- Hroot, <- preorder_head_tail.
Qed.

Lemma getPageBlocks_requests fuel (s : State Remote) rs s' :
  getPageBlocks fuel s = (Ret rs, s') ->
  exists response s1 ts,
    call (BlocksChildrenList (pageId s)) s = (Ret response, s1)
    /\ explores_all (results response) s1 ts s'
    /\ rs = flat_map (preorder None) ts
    /\ requests s'
       = requests s
         ++ BlocksChildrenList (pageId s)
            :: map BlocksChildrenList (flat_map listed ts)
    /\ console s' = console s ++ flat_map failures ts.
Proof.
  intros Hrun.
  apply getPageBlocks_sound in Hrun as (response & s1 & ts & Hcall & Hts & _ & ->).
  destruct (call_trace _ _ Hcall) as [Hr1 Hc1].
  destruct (proj2 explores_trace _ _ _ _ Hts) as [Hr Hc].
  exists response, s1, ts. repeat split; try assumption.
  - rewrite Hr, Hr1, <- app_assoc. reflexivity.
  - now rewrite Hc, Hc1.
Qed.

Lemma getPageBlocks_throw_requests fuel (s : State Remote) e s' :
  getPageBlocks fuel s = (Throw e, s') ->
  exists s1 more,
    s' = logged (ConsoleError "Error retrieving page blocks from Notion:" e) s1
    /\ requests s1 = requests s ++ BlocksChildrenList (pageId s) :: more.
Proof.
  intros Hrun.
  apply getPageBlocks_throw_inv in Hrun
    as [(s1 & Hcall & ->)
       |(response & s1 & before & child & after & ts & s2 & t & s3 & Hcall & _ & Hts
         & Ht & _ & _ & _ & _ & ->)].
  - exists s1, []. split; [reflexivity|]. exact (proj1 (call_trace _ _ Hcall)).
  - destruct (call_trace _ _ Hcall) as [Hr1 _].
    destruct (proj2 explores_trace _ _ _ _ Hts) as [Hr2 _].
    destruct (proj1 explores_trace _ _ _ _ Ht) as [Hr3 _].
    exists s3, (map BlocksChildrenList (flat_map listed ts)
                ++ map BlocksChildrenList (listed t)).
    split; [reflexivity|].
    rewrite Hr3, Hr2, Hr1, <- !app_assoc. reflexivity.
Qed.

(** X5. [getPageBlocks] only reads: when it returns, the listing of the
    configured page was fulfilled and the output is the pre-order of the
    trees a traversal of the listed blocks explored, one after the
    other; the requests it has sent are the listing of the page followed
    by the listings of the blocks the traversal reached that declare
    children, nothing else; the console holds one more line for each
    listing that failed and each loop cut short below the top level; the
    configured page is unchanged. *)
Theorem getPageBlocks_trace fuel (s : State Remote) rs s' :
  getPageBlocks fuel s = (Ret rs, s') ->
  exists response s1 ts,
    call (BlocksChildrenList (pageId s)) s = (Ret response, s1)
    /\ explores_all (results response) s1 ts s'
    /\ rs = flat_map (preorder None) ts
    /\ requests s'
       = requests s
         ++ BlocksChildrenList (pageId s)
            :: map BlocksChildrenList (flat_map listed ts)
    /\ console s' = console s ++ flat_map failures ts
    /\ pageId s' = pageId s.
Proof.
  intros Hrun. pose proof (keeps_getPageBlocks fuel s) as Hpage.
  rewrite Hrun in Hpage. simpl in Hpage.
  apply getPageBlocks_requests in Hrun as (response & s1 & ts & Hcall & Hts & Hrs & Hr & Hc).
  exists response, s1, ts. now repeat split.
Qed.

(** X6. [getPageBlocks] throws in exactly two cases.  Either the listing
    of the page itself is rejected: the error is the service's, nothing
    has been flattened, that one request has been sent and one console
    line written.  Or the listing is fulfilled, the top-level blocks
    before some block are explored within the limit, and the sequence of
    that block has more records than one [push] can take: the error is
    the engine's, the blocks after it are not visited, and the line is
    written after everything the traversal did up to there. *)
Theorem getPageBlocks_throws_iff fuel (s : State Remote) e s' :
  getPageBlocks fuel s = (Throw e, s')
  <-> (exists r1,
          serve (BlocksChildrenList (pageId s)) (remote s) = (Rejected e, r1)
          /\ s' = logged (ConsoleError "Error retrieving page blocks from Notion:" e)
                    (sent (BlocksChildrenList (pageId s)) r1 s))
      \/ (exists response s1 before child after ts s2 t s3,
             call (BlocksChildrenList (pageId s)) s = (Ret response, s1)
             /\ results response = before ++ child :: after
             /\ explores_all before s1 ts s2
             /\ explores child s2 t s3
             /\ spread_limit < records t
             /\ list_max (map depth ts) <= fuel
             /\ depth t <= fuel
             /\ e = spread_error
             /\ s' = logged (ConsoleError "Error retrieving page blocks from Notion:" e)
                       s3).
Proof.
  split.
  - intros Hrun. apply getPageBlocks_throw_inv in Hrun as [(s1 & Hcall & ->)|Hover].
    + left. rewrite call_run in Hcall.
      destruct (serve (BlocksChildrenList (pageId s)) (remote s)) as [[a|e0] r1];
        inversion Hcall; subst.
      now exists r1.
    + now right.
  - intros [(r1 & Hserve & ->)
           |(response & s1 & before & child & after & ts & s2 & t & s3 & Hcall & Hres
             & Hts & Ht & Hover & Hds & Hd & -> & ->)].
    + rewrite getPageBlocks_run, call_run, Hserve. reflexivity.
    + eapply getPageBlocks_overflow.
      * exact Hcall.
      * exact Hres.
      * apply explores_flattens_each; eassumption.
      * apply (proj1 flatten_complete _ _ _ _ Ht); exact Hd.
      * now rewrite preorder_length.
Qed.

(** X7. On a page without children [getPageBlocks] returns the empty
    list after that one request, whatever the recursion budget; and
    whenever it returns, the list is empty only if the page had no
    children. *)
Theorem getPageBlocks_empty_page fuel (s : State Remote) :
  (forall response r1,
      serve (BlocksChildrenList (pageId s)) (remote s) = (Fulfilled response, r1) ->
      results response = [] ->
      getPageBlocks fuel s = (Ret [], sent (BlocksChildrenList (pageId s)) r1 s))
  /\ (forall s',
         getPageBlocks fuel s = (Ret [], s') ->
         exists response r1,
           serve (BlocksChildrenList (pageId s)) (remote s) = (Fulfilled response, r1)
           /\ results response = []).
Proof.
  split.
  - intros response r1 Hserve Hempty.
    rewrite getPageBlocks_run, call_run, Hserve, Hempty. reflexivity.
  - intros s' Hrun.
    apply getPageBlocks_sound in Hrun as (response & s1 & ts & Hcall & Hts & _ & Hrs).
    rewrite call_run in Hcall.
    destruct (serve (BlocksChildrenList (pageId s)) (remote s)) as [[a|e] r1];
      inversion Hcall; subst.
    exists response, r1. split; [reflexivity|].
    rewrite <- (proj2 explores_root _ _ _ _ Hts).
    destruct ts as [|t ts]; [reflexivity|].
    simpl in Hrs. destruct t; discriminate Hrs.
Qed.

End TraceFacts.

(* ===================================================================== *)
(** ** Further properties: the facade and the remote service *)
(* ===================================================================== *)

Section FacadeFacts.
Context {engine : JsEngine} {Remote : Type} {service : NotionService Remote}.

Lemma getPage_run (s : State Remote) :
  let retrieve := PagesRetrieve (pageId s) in
  getPage s
  = match serve retrieve (remote s) with
    | (Fulfilled page, r1) => (Ret page, sent retrieve r1 s)
    | (Rejected e, r1) =>
        (Throw e, logged (ConsoleError "Error retrieving Notion page:" e)
                    (sent retrieve r1 s))
    end.
Proof.
  intros retrieve. unfold getPage.
  rewrite catch_run, bind_run. unfold this_pageId at 1. cbv beta iota.
  rewrite bind_run, call_run. fold retrieve.
  destruct (serve retrieve (remote s)) as [[page|e] r1]; reflexivity.
Qed.

Lemma deleteBlock_run (blockId : string) (s : State Remote) :
  let delete := BlocksDelete blockId in
  deleteBlock blockId s
  = match serve delete (remote s) with
    | (Fulfilled block, r1) => (Ret block, sent delete r1 s)
    | (Rejected e, r1) =>
        (Throw e, logged (ConsoleError "Error deleting block from Notion:" e)
                    (sent delete r1 s))
    end.
Proof.
  intros delete. unfold deleteBlock.
  rewrite catch_run, bind_run, call_run. fold delete.
  destruct (serve delete (remote s)) as [[block|e] r1]; reflexivity.
Qed.

(** The state in which [updateBlock] sends its update: after the
    retrieve, and after the warning when the block is not a paragraph. *)
Lemma updateBlock_run (blockId text : string) (s : State Remote) :
  let retrieve := BlocksRetrieve blockId in
  let update := BlocksUpdate blockId (paragraph_of text) in
  updateBlock blockId text s
  = match serve retrieve (remote s) with
    | (Rejected e, r1) =>
        (Throw e, logged (ConsoleError "Error updating block in Notion:" e)
                    (sent retrieve r1 s))
    | (Fulfilled blockInfo, r1) =>
        let checked :=
          if String.eqb (type blockInfo) "paragraph"
          then sent retrieve r1 s
          else logged (ConsoleWarn (unsupported_type_message blockInfo))
                 (sent retrieve r1 s) in
        match serve update r1 with
        | (Fulfilled response, r2) => (Ret response, sent update r2 checked)
        | (Rejected e, r2) =>
            (Throw e, logged (ConsoleError "Error updating block in Notion:" e)
                        (sent update r2 checked))
        end
    end.
Proof.
  intros retrieve update. unfold updateBlock.
  rewrite catch_run, bind_run, call_run. fold retrieve.
  destruct (serve retrieve (remote s)) as [[blockInfo|e] r1]; [|reflexivity].
  cbv beta iota zeta. rewrite bind_run.
  destruct (String.eqb (type blockInfo) "paragraph"); cbn [negb].
  - rewrite ret_run. cbv beta iota. rewrite bind_run, call_run. fold update.
    change (remote (sent retrieve r1 s)) with r1.
    destruct (serve update r1) as [[response|e] r2]; reflexivity.
  - change (console_warn (unsupported_type_message blockInfo) (sent retrieve r1 s))
      with (@Ret unit tt,
            logged (ConsoleWarn (unsupported_type_message blockInfo))
              (sent retrieve r1 s)).
    cbv beta iota. rewrite bind_run, call_run. fold update.
    change (remote (logged (ConsoleWarn (unsupported_type_message blockInfo))
                      (sent retrieve r1 s))) with r1.
    destruct (serve update r1) as [[response|e] r2]; reflexivity.
Qed.

Lemma fails_cleanly_getPage :
  fails_cleanly (Remote := Remote) getPage "Error retrieving Notion page:".
Proof.
  intros s e s'. rewrite getPage_run. cbv zeta.
  destruct (serve (PagesRetrieve (pageId s)) (remote s)) as [[page|e0] r1] eqn:Hserve;
    intros H; inversion H; subst.
  exists (sent (PagesRetrieve (pageId s)) r1 s), [], (PagesRetrieve (pageId s)).
  repeat split. exact Hserve.
Qed.

Lemma fails_cleanly_addText text parentBlock :
  fails_cleanly (addText text parentBlock) "Error adding text to Notion:".
Proof.
  intros s e s'. rewrite addText_run. cbv zeta.
  destruct (serve (BlocksChildrenAppend (js_or parentBlock (pageId s))
                     [paragraph_block text]) (remote s)) as [[response|e0] r1] eqn:Hserve;
    intros H; inversion H; subst.
  eexists (sent _ r1 s), [], _.
  repeat split. exact Hserve.
Qed.

Lemma fails_cleanly_deleteBlock blockId :
  fails_cleanly (deleteBlock blockId) "Error deleting block from Notion:".
Proof.
  intros s e s'. rewrite deleteBlock_run. cbv zeta.
  destruct (serve (BlocksDelete blockId) (remote s)) as [[block|e0] r1] eqn:Hserve;
    intros H; inversion H; subst.
  eexists (sent _ r1 s), [], _.
  repeat split. exact Hserve.
Qed.

Lemma fails_cleanly_updateBlock blockId text :
  fails_cleanly (updateBlock blockId text) "Error updating block in Notion:".
Proof.
  intros s e s'. rewrite updateBlock_run. cbv zeta.
  destruct (serve (BlocksRetrieve blockId) (remote s)) as [[blockInfo|e0] r1] eqn:Hretrieve.
  - destruct (serve (BlocksUpdate blockId (paragraph_of text)) r1)
      as [[response|e1] r2] eqn:Hupdate; intros H; inversion H; subst.
    eexists (sent _ r2 _), [BlocksRetrieve blockId], _.
    split; [reflexivity|]. split.
    + destruct (String.eqb (type blockInfo) "paragraph"); simpl;
        now rewrite <- app_assoc.
    + simpl. rewrite Hretrieve. exact Hupdate.
  - intros H; inversion H; subst.
    eexists (sent _ r1 s), [], _.
    repeat split. exact Hretrieve.
Qed.

Lemma getPageBlocks_failure fuel (s : State Remote) e s' :
  getPageBlocks fuel s = (Throw e, s') ->
  exists s1,
    s' = logged (ConsoleError "Error retrieving page blocks from Notion:" e) s1
    /\ ((requests s1 = requests s ++ [BlocksChildrenList (pageId s)]
         /\ serve (BlocksChildrenList (pageId s)) (remote s) = (Rejected e, remote s1))
        \/ (e = spread_error
            /\ exists response r1 more,
                serve (BlocksChildrenList (pageId s)) (remote s)
                = (Fulfilled response, r1)
                /\ requests s1
                   = requests s ++ BlocksChildrenList (pageId s) :: more)).
Proof.
  intros Hrun.
  apply getPageBlocks_throw_inv in Hrun
    as [(s1 & Hcall & ->)
       |(response & s1 & before & child & after & ts & s2 & t & s3 & Hcall & _ & Hts
         & Ht & _ & _ & _ & -> & ->)].
  - exists s1. split; [reflexivity|]. left.
    rewrite call_run in Hcall.
    destruct (serve (BlocksChildrenList (pageId s)) (remote s)) as [[a|e0] r1];
      inversion Hcall; subst.
    now split.
  - exists s3. split; [reflexivity|]. right. split; [reflexivity|].
    destruct (call_trace _ _ Hcall) as [Hr1 _].
    destruct (proj2 explores_trace _ _ _ _ Hts) as [Hr2 _].
    destruct (proj1 explores_trace _ _ _ _ Ht) as [Hr3 _].
    rewrite call_run in Hcall.
    destruct (serve (BlocksChildrenList (pageId s)) (remote s)) as [[a|e0] r1];
      inversion Hcall; subst.
    exists response, r1,
      (map BlocksChildrenList (flat_map listed ts) ++ map BlocksChildrenList (listed t)).
    split; [reflexivity|].
    rewrite Hr3, Hr2, Hr1, <- !app_assoc. reflexivity.
Qed.

(** X8. The facade does not invent or alter a service error: whenever
    [getPage], [addText], [deleteBlock] or [updateBlock] throws, the
    error is the one the service rejected the last request sent with,
    in the state the earlier requests of the operation left the service
    in, and the last thing the operation did was to write that error to
    the console under its own message.  [getPageBlocks] also logs what
    it throws last, under its own message; what it throws is either the
    service's rejection of the page listing, its only request, or the
    engine's error for a sequence too long to be pushed, after a page
    listing that was fulfilled. *)
Theorem facade_fails_cleanly :
  fails_cleanly (Remote := Remote) getPage "Error retrieving Notion page:"
  /\ (forall text parentBlock,
         fails_cleanly (addText text parentBlock) "Error adding text to Notion:")
  /\ (forall blockId,
         fails_cleanly (deleteBlock blockId) "Error deleting block from Notion:")
  /\ (forall blockId text,
         fails_cleanly (updateBlock blockId text) "Error updating block in Notion:")
  /\ (forall fuel (s : State Remote) e s',
         getPageBlocks fuel s = (Throw e, s') ->
         exists s1,
           s' = logged (ConsoleError "Error retrieving page blocks from Notion:" e) s1
           /\ ((requests s1 = requests s ++ [BlocksChildrenList (pageId s)]
                /\ serve (BlocksChildrenList (pageId s)) (remote s)
                   = (Rejected e, remote s1))
               \/ (e = spread_error
                   /\ exists response r1 more,
                       serve (BlocksChildrenList (pageId s)) (remote s)
                       = (Fulfilled response, r1)
                       /\ requests s1
                          = requests s ++ BlocksChildrenList (pageId s) :: more))).
Proof.
  split; [exact fails_cleanly_getPage|].
  split; [exact fails_cleanly_addText|].
  split; [exact fails_cleanly_deleteBlock|].
  split; [exact fails_cleanly_updateBlock|].
  exact getPageBlocks_failure.
Qed.

(** X9. When the block cannot be retrieved, [updateBlock] stops there:
    no update request is sent and no warning is written; the retrieve
    error is logged and rethrown. *)
Theorem updateBlock_retrieve_rejected (blockId text : string) (s : State Remote)
    (e : Error) (r1 : Remote) :
  serve (BlocksRetrieve blockId) (remote s) = (Rejected e, r1) ->
  updateBlock blockId text s
  = (Throw e,
     {| pageId := pageId s;
        remote := r1;
        requests := requests s ++ [BlocksRetrieve blockId];
        console := console s ++ [ConsoleError "Error updating block in Notion:" e] |}).
Proof.
  intros Hretrieve. rewrite updateBlock_run. cbv zeta. now rewrite Hretrieve.
Qed.

(** X10. For a paragraph block [updateBlock] writes no warning: the
    retrieve and the update are sent, and the console is untouched when
    the service accepts the update. *)
Theorem updateBlock_paragraph (blockId text : string) (s : State Remote)
    (blockInfo : Block) (r1 : Remote) :
  serve (BlocksRetrieve blockId) (remote s) = (Fulfilled blockInfo, r1) ->
  type blockInfo = "paragraph" ->
  let update := BlocksUpdate blockId (paragraph_of text) in
  updateBlock blockId text s
  = match serve update r1 with
    | (Fulfilled response, r2) =>
        (Ret response,
         {| pageId := pageId s;
            remote := r2;
            requests := requests s ++ [BlocksRetrieve blockId; update];
            console := console s |})
    | (Rejected e, r2) =>
        (Throw e,
         {| pageId := pageId s;
            remote := r2;
            requests := requests s ++ [BlocksRetrieve blockId; update];
            console := console s ++ [ConsoleError "Error updating block in Notion:" e] |})
    end.
Proof.
  intros Hretrieve Htype update. rewrite updateBlock_run. cbv zeta.
  rewrite Hretrieve, Htype. cbn [String.eqb Ascii.eqb Bool.eqb]. fold update.
  destruct (serve update r1) as [[response|e] r2];
    unfold sent, logged; cbn [pageId remote requests console];
    now rewrite <- app_assoc.
Qed.

(** X11. What each operation sends: [getPage] one retrieve of the
    configured page, [deleteBlock] one delete of the block given,
    [updateBlock] a retrieve of the block given, followed by the update
    exactly when the retrieve was fulfilled; and nothing else, however
    the operation ends. *)
Theorem facade_requests (s : State Remote) :
  requests (snd (getPage s)) = requests s ++ [PagesRetrieve (pageId s)]
  /\ (forall blockId,
         requests (snd (deleteBlock blockId s)) = requests s ++ [BlocksDelete blockId])
  /\ (forall blockId text,
         requests (snd (updateBlock blockId text s))
         = requests s
           ++ BlocksRetrieve blockId
              :: match fst (serve (BlocksRetrieve blockId) (remote s)) with
                 | Fulfilled _ => [BlocksUpdate blockId (paragraph_of text)]
                 | Rejected _ => []
                 end).
Proof.
  split; [|split].
  - rewrite getPage_run. cbv zeta.
    destruct (serve (PagesRetrieve (pageId s)) (remote s)) as [[page|e] r1]; reflexivity.
  - intros blockId. rewrite deleteBlock_run. cbv zeta.
    destruct (serve (BlocksDelete blockId) (remote s)) as [[block|e] r1]; reflexivity.
  - intros blockId text. rewrite updateBlock_run. cbv zeta.
    destruct (serve (BlocksRetrieve blockId) (remote s)) as [[blockInfo|e] r1];
      [|reflexivity].
    cbn [fst].
    destruct (serve (BlocksUpdate blockId (paragraph_of text)) r1) as [[response|e] r2];
      destruct (String.eqb (type blockInfo) "paragraph");
      unfold sent, logged; cbn [snd pageId remote requests console];
      now rewrite <- app_assoc.
Qed.

(** X12. What an operation returns is what the service answered, as it
    is: the page of the retrieve, the response of the append, the block
    of the delete, the block of the update.  On return no error line has
    been written; [updateBlock] may have written its warning. *)
Theorem facade_returns_service_answer (s s' : State Remote) :
  (forall page,
      getPage s = (Ret page, s') ->
      serve (PagesRetrieve (pageId s)) (remote s) = (Fulfilled page, remote s')
      /\ console s' = console s)
  /\ (forall text parentBlock response,
         addText text parentBlock s = (Ret response, s') ->
         serve (BlocksChildrenAppend (js_or parentBlock (pageId s))
                  [paragraph_block text]) (remote s)
         = (Fulfilled response, remote s')
         /\ console s' = console s)
  /\ (forall blockId block,
         deleteBlock blockId s = (Ret block, s') ->
         serve (BlocksDelete blockId) (remote s) = (Fulfilled block, remote s')
         /\ console s' = console s)
  /\ (forall blockId text response,
         updateBlock blockId text s = (Ret response, s') ->
         exists blockInfo r1,
           serve (BlocksRetrieve blockId) (remote s) = (Fulfilled blockInfo, r1)
           /\ serve (BlocksUpdate blockId (paragraph_of text)) r1
              = (Fulfilled response, remote s')
           /\ console s'
              = console s
                ++ (if String.eqb (type blockInfo) "paragraph"
                    then []
                    else [ConsoleWarn (unsupported_type_message blockInfo)])).
Proof.
  split; [|split; [|split]].
  - intros page. rewrite getPage_run. cbv zeta.
    destruct (serve (PagesRetrieve (pageId s)) (remote s)) as [[page0|e] r1];
      intros H; inversion H; subst. now split.
  - intros text parentBlock response. rewrite addText_run. cbv zeta.
    destruct (serve (BlocksChildrenAppend (js_or parentBlock (pageId s))
                       [paragraph_block text]) (remote s)) as [[response0|e] r1];
      intros H; inversion H; subst. now split.
  - intros blockId block. rewrite deleteBlock_run. cbv zeta.
    destruct (serve (BlocksDelete blockId) (remote s)) as [[block0|e] r1];
      intros H; inversion H; subst. now split.
  - intros blockId text response. rewrite updateBlock_run. cbv zeta.
    destruct (serve (BlocksRetrieve blockId) (remote s)) as [[blockInfo|e] r1];
      [|discriminate].
    destruct (serve (BlocksUpdate blockId (paragraph_of text)) r1)
      as [[response0|e] r2] eqn:Hupdate; intros H; inversion H; subst.
    exists blockInfo, r1. split; [reflexivity|]. split; [exact Hupdate|].
    destruct (String.eqb (type blockInfo) "paragraph"); simpl;
      [now rewrite app_nil_r | reflexivity].
Qed.

End FacadeFacts.

(* ===================================================================== *)
(** ** Further properties: the command surface *)
(* ===================================================================== *)

Lemma parent_line_differs (p : string) (block : SimpleBlockType) :
  Line ("  Parent: " ++ p) <> Line ("- Block ID: " ++ blockId block)
  /\ Line ("  Parent: " ++ p) <> Line ("  Type: " ++ blockType block)
  /\ Line ("  Parent: " ++ p) <> Line ("  Text: " ++ text block)
  /\ Line ("  Parent: " ++ p) <> Line "".
Proof. repeat split; simpl; discriminate. Qed.

Lemma print_block_length (block : SimpleBlockType) :
  length (print_block block) = 4 + (if truthy (parentBlockId block) then 1 else 0).
Proof.
  unfold print_block, truthy.
  destruct (parentBlockId block) as [p|]; [|reflexivity].
  destruct (String.eqb p ""); reflexivity.
Qed.

Lemma flat_map_print_block_length (blocks : list SimpleBlockType) :
  length (flat_map print_block blocks)
  = 4 * length blocks + length (filter (fun r => truthy (parentBlockId r)) blocks).
Proof.
  induction blocks as [|r blocks IH]; [reflexivity|].
  cbn [flat_map filter]. rewrite length_app, print_block_length, IH.
  destruct (truthy (parentBlockId r)); simpl; lia.
Qed.

Section CommandFacts.
Context {engine : JsEngine} {Remote : Type} {service : NotionService Remote}.
Variable NOTION_PAGE_ID : string.

Lemma use_page_run (options_id : option string) (s : State Remote) :
  use_page options_id s
  = (Ret tt, {| pageId := js_or options_id (pageId s);
                remote := remote s;
                requests := requests s;
                console := console s |}).
Proof.
  destruct s as [page r reqs out]. unfold use_page, js_or.
  destruct options_id as [p|]; [|reflexivity].
  destruct (String.eqb p ""); reflexivity.
Qed.


Lemma command_body_throws fuel cmd (s0 : State Remote) e s :
  command_body fuel cmd s0 = (Throw e, s) ->
  exists s1, s = logged (ConsoleError (facade_error_message cmd) e) s1.
Proof.
  destruct cmd as [oid|txt oid oblock|bid|oid|bid txt]; cbn [command_body facade_error_message];
    rewrite ?bind_run, ?use_page_run; cbv beta iota; rewrite ?bind_run.
  - destruct (getPage _) as [[page|e0|] s1] eqn:Hop; intros H; inversion H; subst.
    apply fails_cleanly_getPage in Hop as (s2 & _ & _ & -> & _). now exists s2.
  - destruct (addText _ _ _) as [[response|e0|] s1] eqn:Hop; intros H; inversion H; subst.
    apply fails_cleanly_addText in Hop as (s2 & _ & _ & -> & _). now exists s2.
  - destruct (deleteBlock _ _) as [[block|e0|] s1] eqn:Hop; intros H; inversion H; subst.
    apply fails_cleanly_deleteBlock in Hop as (s2 & _ & _ & -> & _). now exists s2.
  - destruct (getPageBlocks _ _) as [[blocks|e0|] s1] eqn:Hop; intros H; inversion H; subst.
    apply getPageBlocks_throw_requests in Hop as (s2 & _ & -> & _). now exists s2.
  - destruct (updateBlock _ _ _) as [[block|e0|] s1] eqn:Hop; intros H; inversion H; subst.
    apply fails_cleanly_updateBlock in Hop as (s2 & _ & _ & -> & _). now exists s2.
Qed.

(** X13. Without a token (the variable unset or empty) a command does
    nothing: no request is sent, the service is left as it was, nothing
    is printed, and the one line on standard error is the command's
    message with the missing-variable error. *)
Theorem run_command_without_token fuel (NOTION_TOKEN : option string) (cmd : Command)
    (r : Remote) :
  truthy NOTION_TOKEN = false ->
  run_command NOTION_PAGE_ID fuel NOTION_TOKEN cmd r
  = {| run_remote := r;
       run_requests := [];
       run_stderr := [ConsoleError (command_error_message cmd) missing_token_error];
       run_stdout := [];
       run_finished := true |}.
Proof.
  intros Htoken. unfold run_command, createNotionClient.
  destruct NOTION_TOKEN as [tok|]; [|reflexivity].
  unfold truthy in Htoken. destruct (String.eqb tok ""); [reflexivity|discriminate].
Qed.

(** X14. A command whose facade operation throws prints nothing on
    standard output and ends normally; the error is on standard error
    twice, last: first under the facade's message, then under the
    command's. *)
Theorem run_command_failure fuel (NOTION_TOKEN : option string) (cmd : Command)
    (r : Remote) notion e s :
  createNotionClient NOTION_PAGE_ID NOTION_TOKEN r = inr notion ->
  command_body fuel cmd notion = (Throw e, s) ->
  exists s1,
    s = logged (ConsoleError (facade_error_message cmd) e) s1
    /\ run_command NOTION_PAGE_ID fuel NOTION_TOKEN cmd r
       = {| run_remote := remote s1;
            run_requests := requests s1;
            run_stderr := console s1
                          ++ [ConsoleError (facade_error_message cmd) e;
                              ConsoleError (command_error_message cmd) e];
            run_stdout := [];
            run_finished := true |}.
Proof.
  intros Hclient Hbody.
  destruct (command_body_throws _ _ _ Hbody) as (s1 & ->).
  exists s1. split; [reflexivity|].
  unfold run_command. rewrite Hclient, Hbody.
  unfold logged; cbn [remote requests console]. now rewrite <- app_assoc.
Qed.


(** X16. What list-blocks prints when the listing returns: the heading,
    then for each record its id, type and text, a parent line exactly
    when the record has a parent identifier that is not empty, and a
    blank line; so one line, four per record, and one more per record
    with such a parent. *)
Theorem run_list_blocks_output fuel (NOTION_TOKEN : option string)
    (options_id : option string) (r : Remote) notion blocks s :
  createNotionClient NOTION_PAGE_ID NOTION_TOKEN r = inr notion ->
  getPageBlocks fuel (snd (use_page options_id notion)) = (Ret blocks, s) ->
  run_stdout (run_command NOTION_PAGE_ID fuel NOTION_TOKEN (ListBlocks options_id) r)
  = Line "Page blocks:" :: flat_map print_block blocks
  /\ length
       (run_stdout (run_command NOTION_PAGE_ID fuel NOTION_TOKEN (ListBlocks options_id) r))
     = 1 + 4 * length blocks
       + length (filter (fun record => truthy (parentBlockId record)) blocks)
  /\ (forall record p,
         In (Line ("  Parent: " ++ p)) (print_block record)
         <-> parentBlockId record = Some p /\ p <> "").
Proof.
  intros Hclient Hop.
  assert (Hout : run_stdout
                   (run_command NOTION_PAGE_ID fuel NOTION_TOKEN (ListBlocks options_id) r)
                 = Line "Page blocks:" :: flat_map print_block blocks).
  { unfold run_command. rewrite Hclient. cbn [command_body].
    rewrite bind_run. rewrite use_page_run in *. cbn [snd] in Hop. cbv beta iota.
    rewrite bind_run, Hop. reflexivity. }
  split; [exact Hout|]. split.
  - rewrite Hout. cbn [length]. rewrite flat_map_print_block_length. lia.
  - intros record p. unfold print_block.
    destruct (parent_line_differs p record) as (Hid & Htype & Htext & Hblank).
    split.
    + intros Hin. apply in_app_or in Hin as [Hin|Hin].
      * destruct Hin as [H|[H|[H|[]]]]; symmetry in H; contradiction.
      * apply in_app_or in Hin as [Hin|Hin].
        -- destruct (parentBlockId record) as [parent|]; [|destruct Hin].
           destruct (String.eqb_spec parent "") as [Hempty|Hne]; [destruct Hin|].
           destruct Hin as [H|[]]. simpl in H. inversion H; subst. now split.
        -- destruct Hin as [H|[]]. symmetry in H. contradiction.
    + intros [Hparent Hne]. rewrite Hparent.
      destruct (String.eqb_spec p "") as [Hempty|_]; [contradiction|].
      apply in_or_app. right. apply in_or_app. left. now left.
Qed.

End CommandFacts.

(* ===================================================================== *)
(** ** Further properties: concrete runs *)
(* ===================================================================== *)

Lemma processBlockWithChildren_trace_witness :
  (exists t,
      explores Memory.H (Memory.start Memory.broken) t
        {| pageId := "P";
           remote := Memory.broken;
           requests := [BlocksChildrenList "H"; BlocksChildrenList "B";
                        BlocksChildrenList "D"];
           console := [ConsoleError "Error fetching children for block B:"
                         Memory.not_found] |}
      /\ [simple_block Memory.H None; simple_block Memory.A (Some "H");
          simple_block Memory.B (Some "H"); simple_block Memory.D (Some "H");
          simple_block Memory.E (Some "D")]
         = preorder None t
      /\ [BlocksChildrenList "H"; BlocksChildrenList "B"; BlocksChildrenList "D"]
         = [] ++ map BlocksChildrenList (listed t)
      /\ [ConsoleError "Error fetching children for block B:" Memory.not_found]
         = [] ++ failures t
      /\ length (failures t) <= length (listed t)
      /\ (intact t = true ->
          incl (listed t) ["H"; "A"; "B"; "D"; "E"] /\ length (listed t) <= 5))
  /\ (exists t,
         @explores Memory.narrow _ _ Memory.H (Memory.start Memory.broken) t
           {| pageId := "P";
              remote := Memory.broken;
              requests := [BlocksChildrenList "H"; BlocksChildrenList "B";
                           BlocksChildrenList "D"];
              console := [ConsoleError "Error fetching children for block B:"
                            Memory.not_found;
                          ConsoleError "Error fetching children for block H:"
                            Memory.range_error] |}
         /\ [simple_block Memory.H None; simple_block Memory.A (Some "H");
             simple_block Memory.B (Some "H")]
            = preorder None t
         /\ [BlocksChildrenList "H"; BlocksChildrenList "B"; BlocksChildrenList "D"]
            = [] ++ map BlocksChildrenList (listed t)
         /\ [ConsoleError "Error fetching children for block B:" Memory.not_found;
             ConsoleError "Error fetching children for block H:" Memory.range_error]
            = [] ++ @failures Memory.narrow t
         /\ length (@failures Memory.narrow t) <= length (listed t)
         /\ (intact t = true ->
             incl (listed t) ["H"; "A"; "B"] /\ length (listed t) <= 3)).
Proof.
  assert (Hrun : processBlockWithChildren 3 Memory.H None (Memory.start Memory.broken)
                 = (Ret [simple_block Memory.H None; simple_block Memory.A (Some "H");
                         simple_block Memory.B (Some "H"); simple_block Memory.D (Some "H");
                         simple_block Memory.E (Some "D")],
                    {| pageId := "P";
                       remote := Memory.broken;
                       requests := [BlocksChildrenList "H"; BlocksChildrenList "B";
                                    BlocksChildrenList "D"];
                       console := [ConsoleError "Error fetching children for block B:"
                                     Memory.not_found] |}))
    by reflexivity.
  assert (Hcut : @processBlockWithChildren Memory.narrow _ _ 3 Memory.H None
                   (Memory.start Memory.broken)
                 = (Ret [simple_block Memory.H None; simple_block Memory.A (Some "H");
                         simple_block Memory.B (Some "H")],
                    {| pageId := "P";
                       remote := Memory.broken;
                       requests := [BlocksChildrenList "H"; BlocksChildrenList "B";
                                    BlocksChildrenList "D"];
                       console := [ConsoleError "Error fetching children for block B:"
                                     Memory.not_found;
                                   ConsoleError "Error fetching children for block H:"
                                     Memory.range_error] |}))
    by reflexivity.
  split.
  - exact (processBlockWithChildren_trace _ _ _ _ Hrun).
  - exact (@processBlockWithChildren_trace Memory.narrow _ _ _ _ _ _ _ _ Hcut).
Defined.

Lemma processBlockWithChildren_parent_only_first_witness :
  processBlockWithChildren 2 Memory.B (Some "X") (Memory.start Memory.scenario)
  = (Ret [simple_block Memory.B (Some "X"); simple_block Memory.C (Some "B")],
     sent (BlocksChildrenList "B") Memory.scenario (Memory.start Memory.scenario)).
Proof.
  assert (Hrun : processBlockWithChildren 2 Memory.B None (Memory.start Memory.scenario)
                 = (Ret [simple_block Memory.B None; simple_block Memory.C (Some "B")],
                    sent (BlocksChildrenList "B") Memory.scenario
                      (Memory.start Memory.scenario)))
    by reflexivity.
  exact (proj2 (processBlockWithChildren_parent_only_first _ _ _ _ Hrun) (Some "X")).
Defined.

Lemma getPageBlocks_trace_witness :
  exists response s1 ts,
    call (BlocksChildrenList "P") (Memory.start Memory.scenario) = (Ret response, s1)
    /\ explores_all (results response) s1 ts
         {| pageId := "P";
            remote := Memory.scenario;
            requests := [BlocksChildrenList "P"; BlocksChildrenList "B"];
            console := [] |}
    /\ [simple_block Memory.A None; simple_block Memory.B None;
        simple_block Memory.C (Some "B")]
       = flat_map (preorder None) ts
    /\ [BlocksChildrenList "P"; BlocksChildrenList "B"]
       = [] ++ BlocksChildrenList "P" :: map BlocksChildrenList (flat_map listed ts)
    /\ @nil ConsoleLine = [] ++ flat_map failures ts
    /\ "P" = "P".
Proof.
  assert (Hrun : getPageBlocks 2 (Memory.start Memory.scenario)
                 = (Ret [simple_block Memory.A None; simple_block Memory.B None;
                         simple_block Memory.C (Some "B")],
                    {| pageId := "P";
                       remote := Memory.scenario;
                       requests := [BlocksChildrenList "P"; BlocksChildrenList "B"];
                       console := [] |}))
    by reflexivity.
  exact (getPageBlocks_trace _ _ Hrun).
Defined.

Lemma getPageBlocks_throws_iff_witness :
  getPageBlocks 3
    (NotionWrapper_new {| token := "secret"; cfg_pageId := "Q" |} Memory.scenario)
  = (Throw Memory.not_found,
     {| pageId := "Q";
        remote := Memory.scenario;
        requests := [BlocksChildrenList "Q"];
        console := [ConsoleError "Error retrieving page blocks from Notion:"
                      Memory.not_found] |})
  /\ @getPageBlocks Memory.narrow _ _ 2 (Memory.start Memory.scenario)
     = (Throw Memory.range_error,
        {| pageId := "P";
           remote := Memory.scenario;
           requests := [BlocksChildrenList "P"; BlocksChildrenList "B"];
           console := [ConsoleError "Error retrieving page blocks from Notion:"
                         Memory.range_error] |}).
Proof.
  split.
  - apply (proj2 (getPageBlocks_throws_iff 3
                    (NotionWrapper_new {| token := "secret"; cfg_pageId := "Q" |}
                       Memory.scenario)
                    Memory.not_found _)).
    left. exists Memory.scenario. split; reflexivity.
  - apply (proj2 (@getPageBlocks_throws_iff Memory.narrow _ _ 2
                    (Memory.start Memory.scenario) Memory.range_error _)).
    right.
    exists {| results := [Memory.A; Memory.B] |},
      (sent (BlocksChildrenList "P") Memory.scenario (Memory.start Memory.scenario)),
      [Memory.A], Memory.B, [], [Leaf Memory.A],
      (sent (BlocksChildrenList "P") Memory.scenario (Memory.start Memory.scenario)),
      (Node Memory.B [Leaf Memory.C]),
      (sent (BlocksChildrenList "B") Memory.scenario
         (sent (BlocksChildrenList "P") Memory.scenario (Memory.start Memory.scenario))).
    split; [reflexivity|]. split; [reflexivity|]. split.
    { econstructor; [now constructor | apply le_n | constructor]. }
    split.
    { eapply explores_node with (response := {| results := [Memory.C] |});
        [reflexivity | reflexivity |].
      econstructor; [now constructor | apply le_n | constructor]. }
    split; [apply le_n|]. split; [simpl; lia|]. split; [simpl; lia|].
    split; reflexivity.
Defined.

Lemma getPageBlocks_empty_page_witness :
  getPageBlocks 0
    (Memory.start {| Memory.listing := [("P", [])]; Memory.blocks := [] |})
  = (Ret [],
     {| pageId := "P";
        remote := {| Memory.listing := [("P", [])]; Memory.blocks := [] |};
        requests := [BlocksChildrenList "P"];
        console := [] |}).
Proof.
  apply (proj1 (getPageBlocks_empty_page 0
                  (Memory.start {| Memory.listing := [("P", [])]; Memory.blocks := [] |}))
           {| results := [] |}); reflexivity.
Defined.

Lemma facade_fails_cleanly_witness :
  exists s1 earlier last,
    {| pageId := "P";
       remote := Memory.broken;
       requests := [BlocksRetrieve "E"; BlocksUpdate "E" (paragraph_of "hi")];
       console :=
         [ConsoleWarn
            "Block type image is not supported for text updates. Only paragraph blocks can be updated.";
          ConsoleError "Error updating block in Notion:" Memory.validation_error] |}
    = logged (ConsoleError "Error updating block in Notion:" Memory.validation_error) s1
    /\ requests s1 = [] ++ earlier ++ [last]
    /\ serve last (replay earlier Memory.broken)
       = (Rejected Memory.validation_error, remote s1).
Proof.
  assert (Hrun : updateBlock "E" "hi" (Memory.start Memory.broken)
                 = (Throw Memory.validation_error,
                    {| pageId := "P";
                       remote := Memory.broken;
                       requests := [BlocksRetrieve "E";
                                    BlocksUpdate "E" (paragraph_of "hi")];
                       console :=
                         [ConsoleWarn
                            "Block type image is not supported for text updates. Only paragraph blocks can be updated.";
                          ConsoleError "Error updating block in Notion:"
                            Memory.validation_error] |}))
    by reflexivity.
  exact (proj1 (proj2 (proj2 (proj2 facade_fails_cleanly))) "E" "hi" _ _ _ Hrun).
Defined.

Lemma updateBlock_retrieve_rejected_witness :
  updateBlock "Z" "hi" (Memory.start Memory.scenario)
  = (Throw Memory.not_found,
     {| pageId := "P";
        remote := Memory.scenario;
        requests := [BlocksRetrieve "Z"];
        console := [ConsoleError "Error updating block in Notion:" Memory.not_found] |}).
Proof.
  assert (Hretrieve : serve (BlocksRetrieve "Z") (remote (Memory.start Memory.scenario))
                      = (Rejected Memory.not_found, Memory.scenario))
    by reflexivity.
  exact (updateBlock_retrieve_rejected "hi" (Memory.start Memory.scenario) Hretrieve).
Defined.

Lemma updateBlock_paragraph_witness :
  updateBlock "A" "hi" (Memory.start Memory.scenario)
  = (Ret (Memory.paragraph "A" "hi" false),
     {| pageId := "P";
        remote := Memory.scenario;
        requests := [BlocksRetrieve "A"; BlocksUpdate "A" (paragraph_of "hi")];
        console := [] |}).
Proof.
  assert (Hretrieve : serve (BlocksRetrieve "A") (remote (Memory.start Memory.scenario))
                      = (Fulfilled Memory.A, Memory.scenario))
    by reflexivity.
  assert (Htype : type Memory.A = "paragraph") by reflexivity.
  rewrite (updateBlock_paragraph "hi" (Memory.start Memory.scenario) Hretrieve Htype).
  reflexivity.
Defined.

Lemma facade_returns_service_answer_witness :
  serve (PagesRetrieve "P") Memory.scenario
  = (Fulfilled {| page_object_id := "P"; page_archived := false |}, Memory.scenario)
  /\ @nil ConsoleLine = [].
Proof.
  assert (Hrun : getPage (Memory.start Memory.scenario)
                 = (Ret {| page_object_id := "P"; page_archived := false |},
                    sent (PagesRetrieve "P") Memory.scenario
                      (Memory.start Memory.scenario)))
    by reflexivity.
  exact (proj1 (facade_returns_service_answer (Memory.start Memory.scenario) _) _ Hrun).
Defined.

Lemma run_command_without_token_witness :
  run_command "P" 3 (Some "") (AddText "hi" None (Some "B")) Memory.scenario
  = {| run_remote := Memory.scenario;
       run_requests := [];
       run_stderr := [ConsoleError "Error adding text:" missing_token_error];
       run_stdout := [];
       run_finished := true |}
  /\ run_command "P" 3 None (ListBlocks None) Memory.scenario
     = {| run_remote := Memory.scenario;
          run_requests := [];
          run_stderr := [ConsoleError "Error listing blocks:" missing_token_error];
          run_stdout := [];
          run_finished := true |}.
Proof.
  split.
  - exact (run_command_without_token "P" 3 (Some "") (AddText "hi" None (Some "B"))
             Memory.scenario eq_refl).
  - exact (run_command_without_token "P" 3 None (ListBlocks None) Memory.scenario eq_refl).
Defined.

Lemma run_command_failure_witness :
  exists s1,
    {| pageId := "P";
       remote := Memory.broken;
       requests := [BlocksRetrieve "E"; BlocksUpdate "E" (paragraph_of "hi")];
       console :=
         [ConsoleWarn
            "Block type image is not supported for text updates. Only paragraph blocks can be updated.";
          ConsoleError "Error updating block in Notion:" Memory.validation_error] |}
    = logged (ConsoleError "Error updating block in Notion:" Memory.validation_error) s1
    /\ run_command "P" 3 (Some "secret") (UpdateBlock "E" "hi") Memory.broken
       = {| run_remote := remote s1;
            run_requests := requests s1;
            run_stderr := console s1
                          ++ [ConsoleError "Error updating block in Notion:"
                                Memory.validation_error;
                              ConsoleError "Error updating block:" Memory.validation_error];
            run_stdout := [];
            run_finished := true |}.
Proof.
  assert (Hclient : createNotionClient "P" (Some "secret") Memory.broken
                    = inr (Memory.start Memory.broken))
    by reflexivity.
  assert (Hbody : command_body 3 (UpdateBlock "E" "hi") (Memory.start Memory.broken)
                  = (Throw Memory.validation_error,
                     {| pageId := "P";
                        remote := Memory.broken;
                        requests := [BlocksRetrieve "E";
                                     BlocksUpdate "E" (paragraph_of "hi")];
                        console :=
                          [ConsoleWarn
                             "Block type image is not supported for text updates. Only paragraph blocks can be updated.";
                           ConsoleError "Error updating block in Notion:"
                             Memory.validation_error] |}))
    by reflexivity.
  exact (run_command_failure "P" 3 (Some "secret") (UpdateBlock "E" "hi") Memory.broken
           Hclient Hbody).
Defined.


Lemma run_list_blocks_output_witness :
  run_stdout (run_command "P" 3 (Some "secret") (ListBlocks None) Memory.scenario)
  = [Line "Page blocks:";
     Line "- Block ID: A"; Line "  Type: paragraph"; Line "  Text: Intro"; Line "";
     Line "- Block ID: B"; Line "  Type: paragraph"; Line "  Text: Details"; Line "";
     Line "- Block ID: C"; Line "  Type: paragraph"; Line "  Text: Sub";
     Line "  Parent: B"; Line ""].
Proof.
  assert (Hclient : createNotionClient "P" (Some "secret") Memory.scenario
                    = inr (Memory.start Memory.scenario))
    by reflexivity.
  assert (Hrun : getPageBlocks 3 (snd (use_page None (Memory.start Memory.scenario)))
                 = (Ret [simple_block Memory.A None; simple_block Memory.B None;
                         simple_block Memory.C (Some "B")],
                    {| pageId := "P";
                       remote := Memory.scenario;
                       requests := [BlocksChildrenList "P"; BlocksChildrenList "B"];
                       console := [] |}))
    by reflexivity.
  exact (proj1 (run_list_blocks_output "P" 3 (Some "secret") None Memory.scenario
                  Hclient Hrun)).
Defined.

